(** * pub_term: the terminal session multiplexer

    A shallow embedding of [backend/src/modules/terminal/pty-manager.ts],
    [backend/src/modules/terminal/terminal.gateway.ts] and of the methods
    of [backend/src/modules/session/session.service.ts] the gateway
    calls, with the properties the specification states about them.

    The server is single-threaded: a handler runs to completion, so a
    handler is a function from the state of the server to its next
    state.  The state holds the manager's map of sessions, the connected
    sockets with what has been emitted to each, and a log of the calls
    made to the manager, to the pty objects and to the store. *)

From Stdlib Require Import NArith ZArith String Ascii.
From stdpp Require Import base option list gmap.
From Stdlib Require QArith.

Local Open Scope nat_scope.
Set Warnings "-abstract-large-number".

(** ** JavaScript strings

    A JavaScript string is a sequence of UTF-16 code units; [length],
    [+=] and [slice] all count code units. *)

Abbreviation jsstring := (list N).

(** An ASCII literal of the source as a JavaScript string. *)
Definition lit (s : string) : jsstring :=
  N_of_ascii <$> list_ascii_of_string s.

Module JS.

(** A string is falsy exactly when it is empty ([undefined], the other
    falsy value of an optional string field, is [None] in [truthy_opt]). *)
Definition truthy (s : jsstring) : bool :=
  match s with [] => false | _ :: _ => true end.

(** [s.slice(-n)]: the relative start [-n] is [max (len - n) 0]; [-0]
    is [0], so that [s.slice(-0)] is the whole string. *)
Definition slice_last (n : nat) (s : jsstring) : jsstring :=
  match n with
  | O => s
  | S _ => drop (length s - n) s
  end.

(** The test [!o] on an optional string field, read the other way:
    the string when there is one and it is not empty. *)
Definition truthy_opt (o : option jsstring) : option jsstring :=
  match o with
  | Some s => if truthy s then Some s else None
  | None => None
  end.

End JS.

(** ** Data model *)

(** Modelled from the spec: the Prisma enum [SessionRole] (the schema is
    not among the sources); its three members are the literals the
    controllers and the gateway compare against. *)
Inductive SessionRole := OWNER | OPERATOR | VIEWER.

(** The global role of a user account ([User.role]: 'ADMIN' or 'VIEWER',
    the latter being the default). *)
Module User.
Inductive Role := ADMIN | VIEWER.
End User.

Global Instance SessionRole_eq_dec : EqDecision SessionRole.
Proof. solve_decision. Defined.

Global Instance UserRole_eq_dec : EqDecision User.Role.
Proof. solve_decision. Defined.

(** The part of the database the gateway reads: user accounts with their
    global role, and the [SessionMember] table keyed by
    [userId_sessionId]. *)
Record Database := mkDatabase {
  users : gmap jsstring User.Role;
  sessionMembers : gmap (jsstring * jsstring) SessionRole;
}.

(** An [IPty]: [handle] is the identity of the object, [mock] tells a
    [MockPty] from a node-pty process, and [fault] is the error a
    node-pty [write] or [resize] on this process throws, if it throws
    (the process is gone); the methods of a [MockPty] never throw. *)
Record IPty := mkPty {
  handle : nat;
  mock : bool;
  fault : option jsstring;
}.

Record PtySession := mkPtySession {
  id : jsstring;
  pty : IPty;
  outputBuffer : jsstring;
}.

(** Events the gateway sends to a client. *)
Inductive ServerEvent :=
  | EvError (message : jsstring)
  | EvOutput (data : jsstring)
  | EvJoined (sessionId : jsstring) (role : SessionRole)
  | EvExit (exitCode : Z).

(** An [AuthenticatedSocket] that passed the authentication middleware:
    the three fields the gateway adds, the session rooms the socket has
    joined (the private room socket.io gives every socket is left out),
    and the events emitted to it so far, oldest first. *)
Record Socket := mkSocket {
  userId : jsstring;
  sessionId : option jsstring;
  sessionRole : option SessionRole;
  rooms : gset jsstring;
  outbox : list ServerEvent;
}.

(** Calls that reach the manager's fallible methods, the pty objects and
    the persistence service, in the order they happen. *)
Inductive Call :=
  | CallSpawn (sessionId : jsstring)
  | CallWrite (sessionId data : jsstring)
  | CallResize (sessionId : jsstring) (cols rows : Z)
  | PtySpawn (h : nat) (isMock : bool)
  | PtyWrite (h : nat) (data : jsstring)
  | PtyResize (h : nat) (cols rows : Z)
  | DbUpdateOutputBuffer (sessionId truncated : jsstring)
  | DbUpdateStatusTerminated (sessionId : jsstring).

(** What [initializePty] left in [nodePtySpawn] / [ptyAvailable]:
    node-pty loaded (its [spawn] either returns a process or throws the
    given error), or not loaded. *)
Inductive Backend :=
  | NodePty (failure : option jsstring)
  | NoNodePty.

Record World := mkWorld {
  db : Database;
  backend : Backend;
  sessions : gmap jsstring PtySession;   (* PtyManager.sessions *)
  nextHandle : nat;                       (* identity of the next pty object *)
  sockets : gmap nat Socket;              (* connected sockets by socket id *)
  calls : list Call;
}.

Definition set_sessions (f : gmap jsstring PtySession → gmap jsstring PtySession)
    (w : World) : World :=
  mkWorld (db w) (backend w) (f (sessions w)) (nextHandle w) (sockets w) (calls w).

Definition set_sockets (f : gmap nat Socket → gmap nat Socket) (w : World) : World :=
  mkWorld (db w) (backend w) (sessions w) (nextHandle w) (f (sockets w)) (calls w).

Definition record (c : Call) (w : World) : World :=
  mkWorld (db w) (backend w) (sessions w) (nextHandle w) (sockets w) (calls w ++ [c]).

Definition bump_handle (w : World) : World :=
  mkWorld (db w) (backend w) (sessions w) (S (nextHandle w)) (sockets w) (calls w).

(** A call either returns or throws; either way it leaves a world. *)
Inductive outcome :=
  | Return (w : World)
  | Throw (e : jsstring) (w : World).

Definition world_of (o : outcome) : World :=
  match o with Return w | Throw _ w => w end.

(** ** socket.io *)

Module Io.

Definition push (ev : ServerEvent) (s : Socket) : Socket :=
  mkSocket (userId s) (sessionId s) (sessionRole s) (rooms s) (outbox s ++ [ev]).

(** [socket.emit(ev)] *)
Definition emit (c : nat) (ev : ServerEvent) (w : World) : World :=
  set_sockets (alter (push ev) c) w.

(** [io.to(room).emit(ev)]: every socket in the room gets the event. *)
Definition to_emit (room : jsstring) (ev : ServerEvent) (w : World) : World :=
  set_sockets
    (fmap (λ s, if decide (room ∈ rooms s) then push ev s else s)) w.

End Io.

(** ** session.service.ts *)

Module SessionService.

(** [getUserRole]: [member?.role ?? null] for the [SessionMember] row
    of the pair; the account's global role is not consulted. *)
Definition getUserRole (sessionId userId : jsstring) (d : Database)
    : option SessionRole :=
  sessionMembers d !! (userId, sessionId).

(** [updateOutputBuffer]: the update sent to the store keeps the last
    10000 code units of [output]. *)
Definition updateOutputBuffer (sessionId output : jsstring) (w : World) : World :=
  let truncated := JS.slice_last 10000 output in
  record (DbUpdateOutputBuffer sessionId truncated) w.

(** [updateStatus(sessionId, 'TERMINATED')] *)
Definition updateStatusTerminated (sessionId : jsstring) (w : World) : World :=
  record (DbUpdateStatusTerminated sessionId) w.

End SessionService.

(** The socket.io room of a session: [`session:${sessionId}`]. *)
Definition room (sessionId : jsstring) : jsstring :=
  lit "session:" ++ sessionId.

(** ** pty-manager.ts *)

Module PtyManager.

Definition MAX_BUFFER_SIZE : nat := 10000.

Definition getBuffer (sessionId : jsstring) (w : World) : jsstring :=
  match sessions w !! sessionId with
  | Some session => outputBuffer session
  | None => []
  end.

Definition exists_ (sessionId : jsstring) (w : World) : bool :=
  bool_decide (is_Some (sessions w !! sessionId)).

(** The buffer update of the [onData] handler:
    [outputBuffer += data], then [slice(-MAX_BUFFER_SIZE)] when the
    length exceeds the bound. *)
Definition appendOutput (buffer data : jsstring) : jsstring :=
  let buffer := buffer ++ data in
  if MAX_BUFFER_SIZE <? length buffer
  then JS.slice_last MAX_BUFFER_SIZE buffer
  else buffer.

Definition with_buffer (b : jsstring) (s : PtySession) : PtySession :=
  mkPtySession (id s) (pty s) b.

(** [this.emit('output', sessionId, data)] runs the listener the
    gateway registered: broadcast to the room, then mirror the buffer. *)
Definition emit_output (sessionId data : jsstring) (w : World) : World :=
  let w := Io.to_emit (room sessionId) (EvOutput data) w in
  SessionService.updateOutputBuffer sessionId (getBuffer sessionId w) w.

(** [this.emit('exit', sessionId, exitCode, signal)], likewise. *)
Definition emit_exit (sessionId : jsstring) (exitCode : Z) (w : World) : World :=
  let w := Io.to_emit (room sessionId) (EvExit exitCode) w in
  SessionService.updateStatusTerminated sessionId w.

(** The [onData] handler of the pty [h] that [spawn sessionId] created.
    The handler closes over its own [session] object: the update is
    visible through the map only while that object is the one stored
    under [sessionId]. *)
Definition onData (sessionId : jsstring) (h : nat) (data : jsstring)
    (w : World) : World :=
  let w :=
    match sessions w !! sessionId with
    | Some session =>
        if decide (handle (pty session) = h)
        then set_sessions
               (insert sessionId
                  (with_buffer (appendOutput (outputBuffer session) data) session)) w
        else w
    | None => w
    end in
  emit_output sessionId data w.

(** The [onExit] handler of the same pty. *)
Definition onExit (sessionId : jsstring) (exitCode : Z) (w : World) : World :=
  let w := emit_exit sessionId exitCode w in
  set_sessions (delete sessionId) w.

(** The new pty and its record, as [spawn] registers them.  What the pty
    prints later, the banner of a [MockPty] included, arrives as
    [onData]. *)
Definition create (sessionId : jsstring) (isMock : bool) (w : World) : World :=
  let h := nextHandle w in
  let w := bump_handle (record (PtySpawn h isMock) w) in
  let session := mkPtySession sessionId (mkPty h isMock None) [] in
  set_sessions (insert sessionId session) w.

Definition spawn (sessionId : jsstring) (w : World) : outcome :=
  let w := record (CallSpawn sessionId) w in
  if decide (is_Some (sessions w !! sessionId))
  then Throw (lit "Session already exists") w
  else
    match backend w with
    | NodePty (Some e) => Throw e w
    | NodePty None => Return (create sessionId false w)
    | NoNodePty => Return (create sessionId true w)
    end.

(** [session.pty.write(data)]: a [MockPty] hands the data to its data
    listeners at once (the delayed reply it schedules is a later
    [onData]); a node-pty process takes it or throws. *)
Definition pty_write (sessionId : jsstring) (p : IPty) (data : jsstring)
    (w : World) : outcome :=
  let w := record (PtyWrite (handle p) data) w in
  if mock p then Return (onData sessionId (handle p) data w)
  else match fault p with
       | Some e => Throw e w
       | None => Return w
       end.

Definition write (sessionId data : jsstring) (w : World) : outcome :=
  let w := record (CallWrite sessionId data) w in
  match sessions w !! sessionId with
  | None => Throw (lit "Session not found") w
  | Some session => pty_write sessionId (pty session) data w
  end.

Definition pty_resize (p : IPty) (cols rows : Z) (w : World) : outcome :=
  let w := record (PtyResize (handle p) cols rows) w in
  if mock p then Return w
  else match fault p with
       | Some e => Throw e w
       | None => Return w
       end.

Definition resize (sessionId : jsstring) (cols rows : Z) (w : World) : outcome :=
  let w := record (CallResize sessionId cols rows) w in
  match sessions w !! sessionId with
  | None => Throw (lit "Session not found") w
  | Some session => pty_resize (pty session) cols rows w
  end.

End PtyManager.

(** ** terminal.gateway.ts

    Each handler is a function of the socket id it runs for.  The part of
    [session:join] after [await getUserRole] runs without interruption,
    and the role is the one the lookup returned. *)

Module Gateway.

(** [socket.sessionId = sessionId; socket.sessionRole = role;
    socket.join(room)] *)
Definition attach (sid : jsstring) (role : SessionRole) (s : Socket) : Socket :=
  mkSocket (userId s) (Some sid) (Some role) ({[room sid]} ∪ rooms s) (outbox s).

(** [socket.leave(room); socket.sessionId = undefined;
    socket.sessionRole = undefined] *)
Definition detach (sid : jsstring) (s : Socket) : Socket :=
  mkSocket (userId s) None None (rooms s ∖ {[room sid]}) (outbox s).

Definition session_join (c : nat) (sid : jsstring) (w : World) : World :=
  match sockets w !! c with
  | None => w
  | Some socket =>
    match SessionService.getUserRole sid (userId socket) (db w) with
    | None => Io.emit c (EvError (lit "Access denied")) w
    | Some role =>
      let w := set_sockets (alter (attach sid role) c) w in
      let buffer := PtyManager.getBuffer sid w in
      let w := if JS.truthy buffer then Io.emit c (EvOutput buffer) w else w in
      let o := if PtyManager.exists_ sid w then Return w
               else PtyManager.spawn sid w in
      match o with
      | Return w => Io.emit c (EvJoined sid role) w
      | Throw _ w => Io.emit c (EvError (lit "Failed to join session")) w
      end
    end
  end.

Definition session_input (c : nat) (data : jsstring) (w : World) : World :=
  match sockets w !! c with
  | None => w
  | Some socket =>
    match JS.truthy_opt (sessionId socket) with
    | None => Io.emit c (EvError (lit "Not in a session")) w
    | Some sid =>
      if decide (sessionRole socket = Some VIEWER)
      then Io.emit c (EvError (lit "Viewers cannot send input")) w
      else
        match PtyManager.write sid data w with
        | Return w => w
        | Throw _ w => Io.emit c (EvError (lit "Failed to send input")) w
        end
    end
  end.

Definition session_resize (c : nat) (cols rows : Z) (w : World) : World :=
  match sockets w !! c with
  | None => w
  | Some socket =>
    match JS.truthy_opt (sessionId socket) with
    | None => w
    | Some sid => world_of (PtyManager.resize sid cols rows w)
    end
  end.

Definition session_leave (c : nat) (w : World) : World :=
  match sockets w !! c with
  | None => w
  | Some socket =>
    match JS.truthy_opt (sessionId socket) with
    | None => w
    | Some sid => set_sockets (alter (detach sid) c) w
    end
  end.

End Gateway.

(** ** Observations *)

(** What a client has been sent so far. *)
Definition received (c : nat) (w : World) : list ServerEvent :=
  match sockets w !! c with
  | Some s => outbox s
  | None => []
  end.

(** The handlers' own test for the two states of a connection:
    [!socket.sessionId] holds, or [socket.sessionId] is the identifier
    of a session. *)
Definition unattached (s : Socket) : Prop :=
  JS.truthy_opt (sessionId s) = None.

Definition attached_to (sid : jsstring) (s : Socket) : Prop :=
  JS.truthy_opt (sessionId s) = Some sid.

(** The arguments of the calls to [PtyManager.write], and of the calls
    to the [write] of a pty, in a call log. *)
Definition writes_of (cs : list Call) : list (jsstring * jsstring) :=
  omap (λ c, match c with CallWrite sid d => Some (sid, d) | _ => None end) cs.

Definition pty_writes_of (cs : list Call) : list (nat * jsstring) :=
  omap (λ c, match c with PtyWrite h d => Some (h, d) | _ => None end) cs.

Definition pty_spawns_of (cs : list Call) : list (nat * bool) :=
  omap (λ c, match c with PtySpawn h m => Some (h, m) | _ => None end) cs.

(** The payloads of the output events among the events sent to a client. *)
Definition outputs_of (evs : list ServerEvent) : list jsstring :=
  omap (λ ev, match ev with EvOutput d => Some d | _ => None end) evs.

(** The events a granted join sends before it looks at the pty. *)
Definition catch_up (buffer : jsstring) : list ServerEvent :=
  if JS.truthy buffer then [EvOutput buffer] else [].

(** The buffer after a run of outputs, starting from [buffer]. *)
Definition replay (buffer : jsstring) (outputs : list jsstring) : jsstring :=
  foldl PtyManager.appendOutput buffer outputs.

(** A run of [onData] events of session [sid], each with the pty that
    produced it. *)
Definition run_outputs (sid : jsstring) (outs : list (nat * jsstring))
    (w : World) : World :=
  foldl (λ w o, PtyManager.onData sid o.1 o.2 w) w outs.

(** ** The server as a transition system *)

Inductive Event :=
  | ClientJoin (c : nat) (sid : jsstring)
  | ClientInput (c : nat) (data : jsstring)
  | ClientResize (c : nat) (cols rows : Z)
  | ClientLeave (c : nat)
  | PtyData (sid : jsstring) (h : nat) (data : jsstring)
  | PtyExit (sid : jsstring) (code : Z).

Definition step (w : World) (e : Event) : World :=
  match e with
  | ClientJoin c sid => Gateway.session_join c sid w
  | ClientInput c data => Gateway.session_input c data w
  | ClientResize c cols rows => Gateway.session_resize c cols rows w
  | ClientLeave c => Gateway.session_leave c w
  | PtyData sid h data => PtyManager.onData sid h data w
  | PtyExit sid code => PtyManager.onExit sid code w
  end.

Definition run (es : list Event) (w : World) : World := foldl step w es.

(** A socket that records a session is in the room of that session. *)
Definition in_own_room (w : World) : Prop :=
  ∀ (c : nat) (s : Socket) (sid : jsstring),
    sockets w !! c = Some s → sessionId s = Some sid → room sid ∈ rooms s.

(** The session a socket records and the rooms it is in. *)
Definition membership (s : Socket) : option jsstring * gset jsstring :=
  (sessionId s, rooms s).

Definition same_members (w w' : World) : Prop :=
  ∀ c : nat, membership <$> sockets w' !! c = membership <$> sockets w !! c.

(** ** The access gate in the words of the specification *)

Inductive Permission := NoAccess | OBSERVE | DRIVE.

(** Section 4.3 of the specification: OWNER and OPERATOR drive, VIEWER
    observes, and a user without membership has no access unless the
    account is an administrator, who observes. *)
Definition resolveRole_spec (sid uid : jsstring) (d : Database) : Permission :=
  match SessionService.getUserRole sid uid d with
  | Some OWNER | Some OPERATOR => DRIVE
  | Some VIEWER => OBSERVE
  | None => if decide (users d !! uid = Some User.ADMIN) then OBSERVE else NoAccess
  end.

(** ** A small deployment

    Two sessions; alice owns both, bob views the first, root is an
    administrator and a member of neither. *)

Module Demo.

Definition alice : jsstring := lit "alice".
Definition bob : jsstring := lit "bob".
Definition root : jsstring := lit "root".
Definition sA : jsstring := lit "sess-A".
Definition sB : jsstring := lit "sess-B".

Definition database : Database :=
  mkDatabase
    (<[alice := User.VIEWER]> (<[bob := User.VIEWER]> (<[root := User.ADMIN]> ∅)))
    (<[(alice, sA) := OWNER]> (<[(alice, sB) := OWNER]> (<[(bob, sA) := VIEWER]> ∅))).

Definition fresh (uid : jsstring) : Socket := mkSocket uid None None ∅ [].

(** Sockets 0, 1 and 2 are the connections of alice, bob and root. *)
Definition connected : gmap nat Socket :=
  <[0 := fresh alice]> (<[1 := fresh bob]> (<[2 := fresh root]> ∅)).

Definition start (b : Backend) : World :=
  mkWorld database b ∅ 0 connected [].

(** alice joins the first session, which spawns its (mock) pty; then bob
    joins it. *)
Definition alice_in_A : World := Gateway.session_join 0 sA (start NoNodePty).
Definition both_in_A : World := Gateway.session_join 1 sA alice_in_A.

Definition alice_socket : Socket :=
  mkSocket alice (Some sA) (Some OWNER) {[room sA]} [EvJoined sA OWNER].
Definition bob_socket : Socket :=
  mkSocket bob (Some sA) (Some VIEWER) {[room sA]} [EvJoined sA VIEWER].
Definition sessionA : PtySession := mkPtySession sA (mkPty 0 true None) [].

(** The same join where node-pty is loaded and its [spawn] throws. *)
Definition enoent : jsstring := lit "spawn ENOENT".
Definition alice_failed_A : World :=
  Gateway.session_join 0 sA (start (NodePty (Some enoent))).
Definition alice_failed_socket : Socket :=
  mkSocket alice (Some sA) (Some OWNER) {[room sA]}
    [EvError (lit "Failed to join session")].

(** root asks to join the first session. *)
Definition root_asks_A : World := Gateway.session_join 2 sA alice_in_A.

(** alice goes on to join the second session, and then leaves. *)
Definition alice_in_B : World := Gateway.session_join 0 sB alice_in_A.
Definition alice_left : World := Gateway.session_leave 0 alice_in_B.

(** The first session has printed a greeting before bob joins. *)
Definition hello : jsstring := lit "hello".
Definition greeted : World := PtyManager.onData sA 0 hello alice_in_A.

End Demo.

(** ** The rest of pty-manager.ts *)

Module Manager.

(** [isPtyAvailable]: whether node-pty was loaded. *)
Definition isPtyAvailable (w : World) : bool :=
  match backend w with
  | NodePty _ => true
  | NoNodePty => false
  end.

(** [session.pty.kill()]: a [MockPty] calls its exit listeners at once
    with exit code 0; a node-pty process is signalled, its exit arrives
    later as an exit event, and the call throws, like the other calls,
    when the process is gone. *)
Definition pty_kill (sessionId : jsstring) (p : IPty) (w : World) : outcome :=
  if mock p then Return (PtyManager.onExit sessionId 0 w)
  else match fault p with
       | Some e => Throw e w
       | None => Return w
       end.

Definition kill (sessionId : jsstring) (w : World) : outcome :=
  match sessions w !! sessionId with
  | Some session =>
      match pty_kill sessionId (pty session) w with
      | Return w => Return (set_sessions (delete sessionId) w)
      | Throw e w => Throw e w
      end
  | None => Return w
  end.

End Manager.

(** ** Authentication

    [jwt.verify(token, env.JWT_SECRET)] is the library's: it returns the
    payload, of which the server reads [userId], or throws, a
    [TokenExpiredError] among other errors. *)

Inductive Verified :=
  | Valid (userId : jsstring)
  | Expired
  | Invalid.

(** [req.user] as the HTTP middleware sets it (the fields the routes
    read). *)
Record ReqUser := mkReqUser {
  user_id : jsstring;
  user_role : User.Role;
}.

Module Auth.

(** The socket.io middleware of the gateway: the user id put on the
    socket, or the message of the error passed to [next]. *)
Definition socket_auth (verify : jsstring → Verified) (token : option jsstring)
    (d : Database) : jsstring + jsstring :=
  match JS.truthy_opt token with
  | None => inl (lit "Authentication required")
  | Some token =>
      match verify token with
      | Valid uid =>
          match users d !! uid with
          | Some _ => inr uid
          | None => inl (lit "User not found")
          end
      | Expired | Invalid => inl (lit "Invalid token")
      end
  end.

(** [authHeader?.startsWith('Bearer ')] *)
Definition startsWith_Bearer (authHeader : option jsstring) : bool :=
  match authHeader with
  | Some h => bool_decide (take 7 h = lit "Bearer ")
  | None => false
  end.

(** [authMiddleware] of the HTTP routes: [req.user], or the message of
    the 401 response. *)
Definition authMiddleware (verify : jsstring → Verified)
    (authHeader : option jsstring) (d : Database) : jsstring + ReqUser :=
  if startsWith_Bearer authHeader then
    let token := drop 7 (default [] authHeader) in
    match verify token with
    | Valid uid =>
        match users d !! uid with
        | Some role => inr (mkReqUser uid role)
        | None => inl (lit "User not found")
        end
    | Expired => inl (lit "Token expired")
    | Invalid => inl (lit "Invalid token")
    end
  else inl (lit "Missing or invalid authorization header").

(** The header the client sends: [`Bearer ${token}`]. *)
Definition bearer (token : jsstring) : jsstring := lit "Bearer " ++ token.

End Auth.

(** ** Connections

    socket.io runs the middleware on a handshake and, when it passes,
    hands the gateway a socket under an identifier that is not in use;
    when a socket disconnects it leaves its rooms and is gone (the
    gateway's own handler only writes to the console). *)

Inductive Action :=
  | Handle (e : Event)
  | Connect (c : nat) (token : option jsstring)
  | Disconnect (c : nat).

Definition connect (verify : jsstring → Verified) (c : nat)
    (token : option jsstring) (w : World) : World :=
  match sockets w !! c, Auth.socket_auth verify token (db w) with
  | None, inr uid => set_sockets (insert c (mkSocket uid None None ∅ [])) w
  | _, _ => w
  end.

Definition disconnect (c : nat) (w : World) : World :=
  set_sockets (delete c) w.

Definition act (verify : jsstring → Verified) (w : World) (a : Action) : World :=
  match a with
  | Handle e => step w e
  | Connect c token => connect verify c token w
  | Disconnect c => disconnect c w
  end.

Definition run_actions (verify : jsstring → Verified) (acts : list Action)
    (w : World) : World :=
  foldl (act verify) w acts.

(** The server before the first connection. *)
Definition boot (d : Database) (b : Backend) : World :=
  mkWorld d b ∅ 0 ∅ [].

(** What a socket is, apart from what has been sent to it. *)
Definition core (s : Socket)
    : jsstring * option jsstring * option SessionRole * gset jsstring :=
  (userId s, sessionId s, sessionRole s, rooms s).

Definition same_cores (w w' : World) : Prop :=
  ∀ c : nat, core <$> sockets w' !! c = core <$> sockets w !! c.

Definition role_ok (s : Socket) : Prop :=
  sessionId s = None ↔ sessionRole s = None.

Definition session_ok (sid : jsstring) (session : PtySession) : Prop :=
  id session = sid
  ∧ length (outputBuffer session) ≤ PtyManager.MAX_BUFFER_SIZE.

(** What holds of the server's state in every run: a socket is in the
    room of the session it records, it records a role exactly when it
    records a session, and every record of the manager is stored under
    its own identifier with a buffer within the bound. *)
Record well_formed (w : World) : Prop := {
  wf_rooms : in_own_room w;
  wf_role : ∀ (c : nat) (s : Socket), sockets w !! c = Some s →
              (sessionId s = None ↔ sessionRole s = None);
  wf_sessions : ∀ (sid : jsstring) (session : PtySession),
              sessions w !! sid = Some session →
              id session = sid
              ∧ length (outputBuffer session) ≤ PtyManager.MAX_BUFFER_SIZE;
}.

(** The store is never sent more than 10000 units of output. *)
Definition mirror_bounded (cs : list Call) : Prop :=
  Forall (λ c, match c with
               | DbUpdateOutputBuffer _ truncated => length truncated ≤ 10000
               | _ => True
               end) cs.

(** A run of joins to one session, by the sockets of [cs] in turn. *)
Definition run_joins (sid : jsstring) (cs : list nat) (w : World) : World :=
  foldl (λ w c, Gateway.session_join c sid w) w cs.

(** ** The rest of session.service.ts

    The store behind Prisma, as far as the service uses it: accounts and
    memberships as before, the [Session] rows, and the [InviteToken]
    rows by their unique [token].  Of the constraints of the schema the
    model has the unique keys the service names ([id], [token] and
    [userId_sessionId]); that a membership or an invite refers to an
    account and a session that exist is a hypothesis where a write
    needs it. *)

Module Service.

Inductive SessionStatus := ACTIVE | PAUSED | TERMINATED.

Record SessionRow := mkSessionRow {
  row_name : jsstring;
  row_description : option jsstring;
  row_ownerId : jsstring;
  row_status : SessionStatus;
  row_outputBuffer : jsstring;
}.

Record InviteToken := mkInvite {
  invite_sessionId : jsstring;
  invite_role : SessionRole;
  invite_expiresAt : Z;              (* a [Date], as its time value *)
  invite_usedAt : option Z;
}.

Record Store := mkStore {
  base : Database;
  sessionTable : gmap jsstring SessionRow;
  inviteTable : gmap jsstring InviteToken;
}.

(** What a method throws: [new Error(m)], or Prisma's error for a row
    that would break a unique key. *)
Inductive ServiceError :=
  | Message (m : jsstring)
  | UniqueConstraint.

Inductive result (A : Type) :=
  | Ok (a : A) (st : Store)
  | Fail (e : ServiceError) (st : Store).
Arguments Ok {A} a st.
Arguments Fail {A} e st.

Definition store_of {A : Type} (r : result A) : Store :=
  match r with Ok _ st | Fail _ st => st end.

Definition set_members
    (f : gmap (jsstring * jsstring) SessionRole
         → gmap (jsstring * jsstring) SessionRole) (st : Store) : Store :=
  mkStore (mkDatabase (users (base st)) (f (sessionMembers (base st))))
    (sessionTable st) (inviteTable st).

Definition set_invites (f : gmap jsstring InviteToken → gmap jsstring InviteToken)
    (st : Store) : Store :=
  mkStore (base st) (sessionTable st) (f (inviteTable st)).

Definition set_sessionTable
    (f : gmap jsstring SessionRow → gmap jsstring SessionRow) (st : Store)
    : Store :=
  mkStore (base st) (f (sessionTable st)) (inviteTable st).

Definition getUserRole (sessionId userId : jsstring) (st : Store)
    : option SessionRole :=
  SessionService.getUserRole sessionId userId (base st).

Definition findById (sessionId : jsstring) (st : Store) : option SessionRow :=
  sessionTable st !! sessionId.

(** [create]: one nested write, the session row under the identifier the
    store gives it and the owner's membership with role OWNER; a new row
    is ACTIVE with an empty output buffer. *)
Definition create (newId name : jsstring) (description : option jsstring)
    (ownerId : jsstring) (st : Store) : result SessionRow :=
  match sessionTable st !! newId, sessionMembers (base st) !! (ownerId, newId) with
  | None, None =>
      let row := mkSessionRow name description ownerId ACTIVE [] in
      Ok row (set_members (insert (ownerId, newId) OWNER)
                (set_sessionTable (insert newId row) st))
  | _, _ => Fail UniqueConstraint st
  end.

(** [createInvite]: [token] is the 32 random bytes in hexadecimal and
    [expiresAt] the date lines 92 and 93 compute. *)
Definition createInvite (token : jsstring) (expiresAt : Z)
    (sessionId : jsstring) (role : SessionRole) (st : Store)
    : result InviteToken :=
  match inviteTable st !! token with
  | None =>
      let invite := mkInvite sessionId role expiresAt None in
      Ok invite (set_invites (insert token invite) st)
  | Some _ => Fail UniqueConstraint st
  end.

(** [redeemInvite]: [now] is the date the expiry is compared with and
    [stamp] the one written to [usedAt]; the update of the invite and
    the creation of the membership are two writes. *)
Definition redeemInvite (token userId : jsstring) (now stamp : Z) (st : Store)
    : result (jsstring * SessionRole) :=
  match inviteTable st !! token with
  | None => Fail (Message (lit "Invalid invite token")) st
  | Some invite =>
      match invite_usedAt invite with
      | Some _ => Fail (Message (lit "Invite already used")) st
      | None =>
          if (invite_expiresAt invite <? now)%Z
          then Fail (Message (lit "Invite expired")) st
          else
            let used := mkInvite (invite_sessionId invite) (invite_role invite)
                          (invite_expiresAt invite) (Some stamp) in
            let st := set_invites (insert token used) st in
            let key := (userId, invite_sessionId invite) in
            match sessionMembers (base st) !! key with
            | Some _ => Fail UniqueConstraint st
            | None =>
                Ok (invite_sessionId invite, invite_role invite)
                   (set_members (insert key (invite_role invite)) st)
            end
      end
  end.

End Service.

(** ** session.controller.ts

    The routes behind [authMiddleware].  A field of a JSON body is
    absent, present with a value of the type the schema asks for, or
    present with something else. *)

Module Routes.

Import Service.

Inductive Field (A : Type) :=
  | Absent
  | Present (a : A)
  | Malformed.
Arguments Absent {A}.
Arguments Present {A} a.
Arguments Malformed {A}.

Inductive Body :=
  | ErrorBody (error : jsstring)
  | PrismaErrorBody
  | ValidationBody
  | SessionBody (session : SessionRow) (userRole : option SessionRole)
  | CreatedBody (session : SessionRow)
  | InviteBody (token : jsstring) (expiresAt : Z)
  | MessageBody (message : jsstring).

Record Response := mkResponse {
  status : nat;
  body : Body;
}.

(** [{ error: error.message }] *)
Definition error_body (e : ServiceError) : Body :=
  match e with
  | Message m => ErrorBody m
  | UniqueConstraint => PrismaErrorBody
  end.

(** [createSessionSchema]: a name of 1 to 100 units and an optional
    description of at most 500. *)
Definition parse_session (name description : Field jsstring)
    : option (jsstring * option jsstring) :=
  match name with
  | Present n =>
      if (1 <=? length n) && (length n <=? 100) then
        match description with
        | Absent => Some (n, None)
        | Present d => if length d <=? 500 then Some (n, Some d) else None
        | Malformed => None
        end
      else None
  | Absent | Malformed => None
  end.

(** [createInviteSchema]: a role that is 'VIEWER' or 'OPERATOR', and an
    optional number of hours from 1 to 168. *)
Definition parse_invite (role : Field jsstring)
    (expiresInHours : Field QArith_base.Q)
    : option (SessionRole * option QArith_base.Q) :=
  match role with
  | Present r =>
      let role :=
        if decide (r = lit "VIEWER") then Some VIEWER
        else if decide (r = lit "OPERATOR") then Some OPERATOR
        else None in
      match role, expiresInHours with
      | Some role, Absent => Some (role, None)
      | Some role, Present h =>
          if QArith_base.Qle_bool (QArith_base.inject_Z 1) h
             && QArith_base.Qle_bool h (QArith_base.inject_Z 168)
          then Some (role, Some h) else None
      | _, _ => None
      end
  | Absent | Malformed => None
  end.

(** POST /sessions *)
Definition post_session (user : ReqUser) (name description : Field jsstring)
    (newId : jsstring) (st : Store) : Response * Store :=
  match parse_session name description with
  | None => (mkResponse 400 ValidationBody, st)
  | Some (name, description) =>
      match create newId name description (user_id user) st with
      | Ok session st => (mkResponse 201 (CreatedBody session), st)
      | Fail _ st => (mkResponse 500 (ErrorBody (lit "Internal server error")), st)
      end
  end.

(** GET /sessions/:id *)
Definition get_session (user : ReqUser) (id : jsstring) (st : Store)
    : Response * Store :=
  match findById id st with
  | None => (mkResponse 404 (ErrorBody (lit "Session not found")), st)
  | Some session =>
      let role := getUserRole id (user_id user) st in
      if bool_decide (role = None) && bool_decide (user_role user ≠ User.ADMIN)
      then (mkResponse 403 (ErrorBody (lit "Access denied")), st)
      else (mkResponse 200 (SessionBody session role), st)
  end.

(** POST /sessions/:id/invite *)
Definition post_invite (user : ReqUser) (id : jsstring) (role : Field jsstring)
    (expiresInHours : Field QArith_base.Q) (token : jsstring) (expiresAt : Z)
    (st : Store) : Response * Store :=
  match parse_invite role expiresInHours with
  | None => (mkResponse 400 ValidationBody, st)
  | Some (inviteRole, _) =>
      let role := getUserRole id (user_id user) st in
      if bool_decide (role ≠ Some OWNER)
         && bool_decide (user_role user ≠ User.ADMIN)
      then (mkResponse 403 (ErrorBody (lit "Only owners can create invites")), st)
      else
        match createInvite token expiresAt id inviteRole st with
        | Ok invite st =>
            (mkResponse 201 (InviteBody token (invite_expiresAt invite)), st)
        | Fail _ st =>
            (mkResponse 500 (ErrorBody (lit "Internal server error")), st)
        end
  end.

(** POST /sessions/join/:token *)
Definition post_join (user : ReqUser) (token : jsstring) (now stamp : Z)
    (st : Store) : Response * Store :=
  match redeemInvite token (user_id user) now stamp st with
  | Ok _ st => (mkResponse 200 (MessageBody (lit "Successfully joined session")), st)
  | Fail e st => (mkResponse 400 (error_body e), st)
  end.

Inductive Request :=
  | PostSession (name description : Field jsstring) (newId : jsstring)
  | GetSession (id : jsstring)
  | PostInvite (id : jsstring) (role : Field jsstring)
      (expiresInHours : Field QArith_base.Q) (token : jsstring) (expiresAt : Z)
  | PostJoin (token : jsstring) (now stamp : Z).

Definition route (user : ReqUser) (r : Request) (st : Store) : Response * Store :=
  match r with
  | PostSession name description newId =>
      post_session user name description newId st
  | GetSession id => get_session user id st
  | PostInvite id role hours token expiresAt =>
      post_invite user id role hours token expiresAt st
  | PostJoin token now stamp => post_join user token now stamp st
  end.

(** A request with its authorization header: [router.use(authMiddleware)]
    in front of the routes. *)
Definition serve (verify : jsstring → Verified)
    (req : option jsstring * Request) (st : Store) : Response * Store :=
  match Auth.authMiddleware verify req.1 (base st) with
  | inl message => (mkResponse 401 (ErrorBody message), st)
  | inr user => route user req.2 st
  end.

Definition serve_all (verify : jsstring → Verified)
    (reqs : list (option jsstring * Request)) (st : Store) : Store :=
  foldl (λ st req, (serve verify req st).2) st reqs.

(** A store with accounts and nothing else. *)
Definition empty_store (accounts : gmap jsstring User.Role) : Store :=
  mkStore (mkDatabase accounts ∅) ∅ ∅.

(** Only the creator of a session is its OWNER, and no invite carries
    OWNER. *)
Definition owners_are_creators (st : Store) : Prop :=
  (∀ (u sid : jsstring),
     sessionMembers (base st) !! (u, sid) = Some OWNER →
     ∃ row, sessionTable st !! sid = Some row ∧ row_ownerId row = u)
  ∧ ∀ (t : jsstring) (invite : InviteToken),
      inviteTable st !! t = Some invite → invite_role invite ≠ OWNER.

End Routes.

(** ** The small deployment, continued

    Tokens for alice and root, a session alice creates over HTTP, and an
    OPERATOR invite for it. *)

Module Desk.

Definition alice_token : jsstring := lit "token-of-alice".
Definition root_token : jsstring := lit "token-of-root".

Definition verify (token : jsstring) : Verified :=
  if decide (token = alice_token) then Valid Demo.alice
  else if decide (token = root_token) then Valid Demo.root
  else if decide (token = lit "token-from-last-year") then Expired
  else Invalid.

(** The server after alice has connected and joined the first session. *)
Definition alice_online : World :=
  run_actions verify
    [Connect 0 (Some alice_token); Handle (ClientJoin 0 Demo.sA)]
    (boot Demo.database NoNodePty).

Definition accounts : gmap jsstring User.Role := users Demo.database.

Definition board : jsstring := lit "board".
Definition invitation : jsstring := lit "c0ffee".

(** alice has created the session [board] ... *)
Definition with_board : Service.Store :=
  Service.store_of
    (Service.create board (lit "Board") None Demo.alice
       (Routes.empty_store accounts)).

Definition board_row : Service.SessionRow :=
  Service.mkSessionRow (lit "Board") None Demo.alice Service.ACTIVE [].

(** ... and an invite for it that expires at time 1000. *)
Definition invite : Service.InviteToken :=
  Service.mkInvite board OPERATOR 1000 None.

Definition with_invite : Service.Store :=
  Service.store_of (Service.createInvite invitation 1000 board OPERATOR with_board).

(** bob has redeemed it at time 500. *)
Definition bob_joined : Service.Store :=
  Service.store_of (Service.redeemInvite invitation Demo.bob 500 501 with_invite).

(** A server whose database is that of [with_board], with root connected. *)
Definition root_online : World :=
  mkWorld (Service.base with_board) NoNodePty ∅ 0
    (<[7 := Demo.fresh Demo.root]> ∅) [].

End Desk.

(** * Properties *)

Arguments lit : simpl never.
Arguments room : simpl never.

Ltac wsimpl :=
  cbn [sessions sockets calls db backend nextHandle world_of
       set_sessions set_sockets record bump_handle] in *.

Ltac ssimpl :=
  unfold Io.push, Gateway.attach, Gateway.detach;
  cbn [userId sessionId sessionRole rooms outbox
       fmap option_fmap option_map app].

(** ** The replay buffer *)

Section Buffer.

Import PtyManager.

Lemma MAX_BUFFER_SIZE_pos : 0 < MAX_BUFFER_SIZE.
Proof. vm_compute. lia. Qed.

Lemma slice_last_length (n : nat) (s : jsstring) :
  0 < n → length (JS.slice_last n s) = length s `min` n.
Proof.
  intros Hn. destruct n as [|n]; [lia|].
  cbn [JS.slice_last]. rewrite length_drop. lia.
Qed.

Lemma slice_last_suffix (n : nat) (s : jsstring) :
  0 < n → ∃ evicted, s = evicted ++ JS.slice_last n s.
Proof.
  intros Hn. destruct n as [|n]; [lia|].
  exists (take (length s - S n) s). cbn [JS.slice_last].
  by rewrite take_drop.
Qed.

Lemma slice_last_short (n : nat) (s : jsstring) :
  length s ≤ n → JS.slice_last n s = s.
Proof.
  intros Hle. destruct n as [|n]; [done|].
  cbn [JS.slice_last]. replace (length s - S n) with 0 by lia. done.
Qed.

(** The handler's guarded [slice] is the unguarded one. *)
Lemma appendOutput_slice (buffer data : jsstring) :
  appendOutput buffer data = JS.slice_last MAX_BUFFER_SIZE (buffer ++ data).
Proof.
  unfold appendOutput. case_match eqn:Hlt; [done|].
  apply Nat.ltb_ge in Hlt. by rewrite slice_last_short.
Qed.

Lemma appendOutput_length (buffer data : jsstring) :
  length (appendOutput buffer data)
  = length (buffer ++ data) `min` MAX_BUFFER_SIZE.
Proof.
  rewrite appendOutput_slice. apply slice_last_length, MAX_BUFFER_SIZE_pos.
Qed.

Lemma slice_last_app_absorb (n : nat) (s data : jsstring) :
  JS.slice_last n (JS.slice_last n s ++ data) = JS.slice_last n (s ++ data).
Proof.
  destruct n as [|n]; [done|]. cbn [JS.slice_last].
  rewrite <- (drop_app_le s data) by lia.
  rewrite drop_drop, length_drop, length_app. f_equal. lia.
Qed.

(** Trimming after every append keeps what one trim at the end keeps. *)
Lemma replay_slice (outputs : list jsstring) (buffer : jsstring) :
  length buffer ≤ MAX_BUFFER_SIZE →
  replay buffer outputs
  = JS.slice_last MAX_BUFFER_SIZE (buffer ++ concat outputs).
Proof.
  unfold replay. revert buffer.
  induction outputs as [|d ds IH]; intros buffer Hb; cbn [foldl concat].
  - rewrite app_nil_r. by rewrite slice_last_short.
  - rewrite IH, appendOutput_slice.
    + by rewrite slice_last_app_absorb, app_assoc.
    + rewrite appendOutput_length. lia.
Qed.

End Buffer.

(** ** Emitting to sockets *)

Section Emit.

Lemma received_emit (c : nat) (ev : ServerEvent) (w : World) (s : Socket) :
  sockets w !! c = Some s →
  received c (Io.emit c ev w) = received c w ++ [ev].
Proof.
  intros Hs. unfold received, Io.emit. cbn.
  by rewrite lookup_alter_eq, Hs.
Qed.

Lemma received_emit_ne (c c' : nat) (ev : ServerEvent) (w : World) :
  c ≠ c' → received c' (Io.emit c ev w) = received c' w.
Proof.
  intros Hne. unfold received, Io.emit. cbn.
  by rewrite lookup_alter_ne.
Qed.

Lemma lookup_emit (c : nat) (ev : ServerEvent) (w : World) :
  sockets (Io.emit c ev w) !! c = Io.push ev <$> sockets w !! c.
Proof. unfold Io.emit. cbn. by rewrite lookup_alter_eq. Qed.

Lemma lookup_to_emit (c : nat) (rm : jsstring) (ev : ServerEvent) (w : World) :
  sockets (Io.to_emit rm ev w) !! c
  = (λ s, if decide (rm ∈ rooms s) then Io.push ev s else s) <$> sockets w !! c.
Proof. unfold Io.to_emit. cbn. by rewrite lookup_fmap. Qed.

Lemma received_to_emit_in (c : nat) (rm : jsstring) (ev : ServerEvent)
    (w : World) (s : Socket) :
  sockets w !! c = Some s → rm ∈ rooms s →
  received c (Io.to_emit rm ev w) = received c w ++ [ev].
Proof.
  intros Hs Hin. unfold received. rewrite lookup_to_emit, Hs. cbn.
  by rewrite decide_True.
Qed.

Lemma received_to_emit_out (c : nat) (rm : jsstring) (ev : ServerEvent)
    (w : World) (s : Socket) :
  sockets w !! c = Some s → rm ∉ rooms s →
  received c (Io.to_emit rm ev w) = received c w.
Proof.
  intros Hs Hin. unfold received. rewrite lookup_to_emit, Hs. cbn.
  by rewrite decide_False.
Qed.

(** Emitting changes outboxes only. *)
Lemma rooms_to_emit (c : nat) (rm : jsstring) (ev : ServerEvent)
    (w : World) (s : Socket) :
  sockets w !! c = Some s →
  ∃ s', sockets (Io.to_emit rm ev w) !! c = Some s'
        ∧ rooms s' = rooms s ∧ sessionId s' = sessionId s
        ∧ sessionRole s' = sessionRole s ∧ userId s' = userId s.
Proof.
  intros Hs. rewrite lookup_to_emit, Hs. cbn.
  eexists; split; [done|]. by case_decide.
Qed.

Lemma room_inj (sid sid' : jsstring) : room sid = room sid' → sid = sid'.
Proof. unfold room. by intros ?%app_inv_head. Qed.

End Emit.

(** ** The handlers of a pty *)

Section Pty.

Import PtyManager.

Lemma sessions_onData (sid : jsstring) (data : jsstring) (w : World)
    (session : PtySession) :
  sessions w !! sid = Some session →
  sessions (onData sid (handle (pty session)) data w)
  = <[sid := with_buffer (appendOutput (outputBuffer session) data) session]>
      (sessions w).
Proof.
  intros Hs. unfold onData. rewrite Hs, decide_True by done. done.
Qed.

Lemma getBuffer_onData (sid : jsstring) (data : jsstring) (w : World)
    (session : PtySession) :
  sessions w !! sid = Some session →
  getBuffer sid (onData sid (handle (pty session)) data w)
  = appendOutput (getBuffer sid w) data.
Proof.
  intros Hs. unfold getBuffer at 1 2.
  rewrite (sessions_onData _ _ _ _ Hs), lookup_insert_eq, Hs. done.
Qed.

Lemma sockets_onData (sid : jsstring) (h : nat) (data : jsstring) (w : World) :
  sockets (onData sid h data w)
  = sockets (Io.to_emit (room sid) (EvOutput data) w).
Proof.
  unfold onData. destruct (sessions w !! sid) as [session|]; [|done].
  by case_decide.
Qed.

Lemma received_onData_in (c : nat) (sid : jsstring) (h : nat) (data : jsstring)
    (w : World) (s : Socket) :
  sockets w !! c = Some s → room sid ∈ rooms s →
  received c (onData sid h data w) = received c w ++ [EvOutput data].
Proof.
  intros Hs Hin. rewrite <- (received_to_emit_in c (room sid) _ w s Hs Hin).
  unfold received. by rewrite sockets_onData.
Qed.

Lemma received_onData_out (c : nat) (sid : jsstring) (h : nat) (data : jsstring)
    (w : World) (s : Socket) :
  sockets w !! c = Some s → room sid ∉ rooms s →
  received c (onData sid h data w) = received c w.
Proof.
  intros Hs Hin. rewrite <- (received_to_emit_out c (room sid) (EvOutput data) w s Hs Hin).
  unfold received. by rewrite sockets_onData.
Qed.

(** A run of outputs of the registered pty keeps its record in place
    and folds the outputs into the buffer. *)
Lemma run_outputs_session (sid : jsstring) (outs : list jsstring) :
  ∀ (w : World) (session : PtySession),
    sessions w !! sid = Some session →
    ∃ session',
      sessions (run_outputs sid ((λ d, (handle (pty session), d)) <$> outs) w)
        !! sid = Some session'
      ∧ pty session' = pty session
      ∧ outputBuffer session' = replay (outputBuffer session) outs.
Proof.
  induction outs as [|d ds IH]; intros w session Hs.
  - by exists session.
  - destruct (IH (onData sid (handle (pty session)) d w)
                (with_buffer (appendOutput (outputBuffer session) d) session))
      as (session' & Hs' & Hp & Hb).
    { by rewrite (sessions_onData _ _ _ _ Hs), lookup_insert_eq. }
    exists session'. done.
Qed.

End Pty.

(** C2: whatever a session record holds, right after the [onData]
    handler of its pty has appended [data] the replay buffer is the
    trailing part of the old buffer followed by [data], and its length is
    the smaller of that string's length and 10000: never more than 10000
    units, and exactly the most recent 10000 when the append goes over.
    This holds after every append of every run of outputs. *)
Theorem C2_replay_buffer_bounded (w : World) (sid : jsstring)
    (session : PtySession) (outs : list jsstring) (data : jsstring) :
  sessions w !! sid = Some session →
  let h := handle (pty session) in
  let before := run_outputs sid ((λ d, (h, d)) <$> outs) w in
  let after := PtyManager.onData sid h data before in
  PtyManager.getBuffer sid before = replay (outputBuffer session) outs
  ∧ (∃ evicted,
        PtyManager.getBuffer sid before ++ data
        = evicted ++ PtyManager.getBuffer sid after)
  ∧ length (PtyManager.getBuffer sid after)
    = length (PtyManager.getBuffer sid before ++ data)
        `min` PtyManager.MAX_BUFFER_SIZE
  ∧ length (PtyManager.getBuffer sid after) ≤ 10000.
Proof.
  intros Hs h before after.
  destruct (run_outputs_session sid outs w session Hs)
    as (session' & Hs' & Hp & Hb).
  assert (PtyManager.getBuffer sid after
          = PtyManager.appendOutput (PtyManager.getBuffer sid before) data) as Ha.
  { subst after h. rewrite <- Hp. by apply getBuffer_onData. }
  assert (PtyManager.getBuffer sid before = replay (outputBuffer session) outs) as Hg.
  { unfold PtyManager.getBuffer. subst before h. by rewrite Hs'. }
  split; [done|]. rewrite Ha. split; [|split].
  - rewrite appendOutput_slice. apply slice_last_suffix, MAX_BUFFER_SIZE_pos.
  - apply appendOutput_length.
  - rewrite appendOutput_length.
    change 10000 with (PtyManager.MAX_BUFFER_SIZE). lia.
Qed.

(** ** The manager's methods *)

Section Manager.

Import PtyManager.

Lemma spawn_tracked (sid : jsstring) (w : World) :
  is_Some (sessions w !! sid) →
  spawn sid w = Throw (lit "Session already exists") (record (CallSpawn sid) w).
Proof. intros Hs. unfold spawn. wsimpl. by rewrite decide_True. Qed.

Lemma spawn_untracked (sid : jsstring) (w : World) :
  sessions w !! sid = None →
  spawn sid w =
    match backend w with
    | NodePty (Some e) => Throw e (record (CallSpawn sid) w)
    | NodePty None => Return (create sid false (record (CallSpawn sid) w))
    | NoNodePty => Return (create sid true (record (CallSpawn sid) w))
    end.
Proof.
  intros Hs. unfold spawn. wsimpl. rewrite decide_False; [done|].
  rewrite Hs. by intros [? ?].
Qed.

Lemma calls_onData (sid : jsstring) (h : nat) (data : jsstring) (w : World) :
  ∃ b, calls (onData sid h data w) = calls w ++ [DbUpdateOutputBuffer sid b].
Proof.
  unfold onData, emit_output, SessionService.updateOutputBuffer.
  destruct (sessions w !! sid) as [session|]; [case_decide|]; wsimpl; eauto.
Qed.

Lemma writes_of_app (cs cs' : list Call) :
  writes_of (cs ++ cs') = writes_of cs ++ writes_of cs'.
Proof. apply omap_app. Qed.

Lemma pty_writes_of_app (cs cs' : list Call) :
  pty_writes_of (cs ++ cs') = pty_writes_of cs ++ pty_writes_of cs'.
Proof. apply omap_app. Qed.

(** Every call of [write] is logged once with its arguments, and reaches
    the [write] of the pty exactly when the session is tracked. *)
Lemma write_calls (sid data : jsstring) (w : World) :
  let w' := world_of (write sid data w) in
  writes_of (calls w') = writes_of (calls w) ++ [(sid, data)]
  ∧ pty_writes_of (calls w')
    = pty_writes_of (calls w)
      ++ match sessions w !! sid with
         | Some session => [(handle (pty session), data)]
         | None => []
         end.
Proof.
  unfold write, pty_write. wsimpl.
  destruct (sessions w !! sid) as [session|]; wsimpl.
  - destruct (mock (pty session)).
    + wsimpl.
      destruct (calls_onData sid (handle (pty session)) data
                  (record (PtyWrite (handle (pty session)) data)
                     (record (CallWrite sid data) w))) as [b ->].
      wsimpl. rewrite !writes_of_app, !pty_writes_of_app. cbn.
      by rewrite !app_nil_r.
    + destruct (fault (pty session)); wsimpl;
        rewrite !writes_of_app, !pty_writes_of_app; cbn;
        by rewrite !app_nil_r.
  - rewrite !writes_of_app, !pty_writes_of_app. cbn. by rewrite !app_nil_r.
Qed.

(** A [write] that throws has changed the call log only. *)
Lemma write_throw (sid data e : jsstring) (w w1 : World) :
  write sid data w = Throw e w1 →
  sockets w1 = sockets w ∧ sessions w1 = sessions w.
Proof.
  unfold write, pty_write. wsimpl.
  destruct (sessions w !! sid) as [session|].
  - destruct (mock (pty session)); [done|].
    destruct (fault (pty session)); [|done].
    by intros [= _ <-].
  - by intros [= _ <-].
Qed.

(** [write] throws exactly when the session is not tracked, or its
    node-pty process is gone. *)
Lemma write_throws_iff (sid data : jsstring) (w : World) :
  (∃ e w1, write sid data w = Throw e w1)
  ↔ sessions w !! sid = None
    ∨ ∃ session e, sessions w !! sid = Some session
                   ∧ mock (pty session) = false
                   ∧ fault (pty session) = Some e.
Proof.
  unfold write, pty_write. wsimpl.
  destruct (sessions w !! sid) as [session|]; [|split; eauto].
  destruct (mock (pty session)) eqn:Hm.
  { split; [by intros (? & ? & ?)|].
    intros [?|(? & ? & [= <-] & ? & _)]; congruence. }
  destruct (fault (pty session)) eqn:Hf.
  - split; eauto 8.
  - split; [by intros (? & ? & ?)|].
    intros [?|(? & ? & [= <-] & _ & ?)]; congruence.
Qed.

End Manager.

(** C7: [spawn] for a session that is already tracked throws 'Session
    already exists'; no pty is created, and the map of sessions, with the
    existing record in it, is left as it was. *)
Theorem C7_spawn_already_exists (w : World) (sid : jsstring)
    (session : PtySession) :
  sessions w !! sid = Some session →
  ∃ w', PtyManager.spawn sid w = Throw (lit "Session already exists") w'
        ∧ sessions w' = sessions w
        ∧ sessions w' !! sid = Some session
        ∧ pty_spawns_of (calls w') = pty_spawns_of (calls w)
        ∧ nextHandle w' = nextHandle w
        ∧ sockets w' = sockets w.
Proof.
  intros Hs. eexists. split; [by apply spawn_tracked|]. wsimpl.
  repeat split; try done.
  unfold pty_spawns_of. rewrite omap_app. cbn. by rewrite app_nil_r.
Qed.

(** ** The input and resize handlers *)

Section Input.

Import Gateway.

Lemma attached_to_inv (sid : jsstring) (s : Socket) :
  attached_to sid s ↔ sessionId s = Some sid ∧ sid ≠ [].
Proof.
  unfold attached_to, JS.truthy_opt, JS.truthy.
  destruct (sessionId s) as [[|u x]|]; split;
    try (intros [[= <-] ?]); try (intros [= <-]); done.
Qed.

Lemma attached_not_unattached (sid : jsstring) (s : Socket) :
  attached_to sid s → ¬ unattached s.
Proof. unfold attached_to, unattached. congruence. Qed.

Lemma input_unattached (c : nat) (data : jsstring) (w : World) (s : Socket) :
  sockets w !! c = Some s → unattached s →
  session_input c data w = Io.emit c (EvError (lit "Not in a session")) w.
Proof. intros Hs Hu. unfold session_input. by rewrite Hs, Hu. Qed.

Lemma input_viewer (c : nat) (sid data : jsstring) (w : World) (s : Socket) :
  sockets w !! c = Some s → attached_to sid s → sessionRole s = Some VIEWER →
  session_input c data w
  = Io.emit c (EvError (lit "Viewers cannot send input")) w.
Proof.
  intros Hs Ha Hr. unfold session_input. rewrite Hs, Ha.
  by rewrite decide_True.
Qed.

Lemma input_forward (c : nat) (sid data : jsstring) (w : World) (s : Socket) :
  sockets w !! c = Some s → attached_to sid s → sessionRole s ≠ Some VIEWER →
  session_input c data w
  = match PtyManager.write sid data w with
    | Return w' => w'
    | Throw _ w' => Io.emit c (EvError (lit "Failed to send input")) w'
    end.
Proof.
  intros Hs Ha Hr. unfold session_input. rewrite Hs, Ha.
  by rewrite decide_False.
Qed.

Lemma input_forward_calls (c : nat) (sid data : jsstring) (w : World)
    (s : Socket) :
  sockets w !! c = Some s → attached_to sid s → sessionRole s ≠ Some VIEWER →
  calls (session_input c data w)
  = calls (world_of (PtyManager.write sid data w)).
Proof.
  intros Hs Ha Hr. rewrite (input_forward c sid data w s Hs Ha Hr).
  by destruct (PtyManager.write sid data w).
Qed.

Lemma input_write_failed (c : nat) (sid data e : jsstring) (w w1 : World)
    (s : Socket) :
  sockets w !! c = Some s → attached_to sid s → sessionRole s ≠ Some VIEWER →
  PtyManager.write sid data w = Throw e w1 →
  received c (session_input c data w)
  = received c w ++ [EvError (lit "Failed to send input")]
  ∧ sockets (session_input c data w) !! c
    = Some (Io.push (EvError (lit "Failed to send input")) s)
  ∧ sessions (session_input c data w) = sessions w.
Proof.
  intros Hs Ha Hr Hw. rewrite (input_forward c sid data w s Hs Ha Hr), Hw.
  destruct (write_throw _ _ _ _ _ Hw) as [Hso Hse].
  assert (sockets w1 !! c = Some s) as Hs1 by by rewrite Hso.
  rewrite (received_emit c _ w1 s Hs1), lookup_emit, Hs1.
  unfold received. by rewrite Hso.
Qed.

Lemma resize_unattached (c : nat) (cols rows : Z) (w : World) (s : Socket) :
  sockets w !! c = Some s → unattached s →
  session_resize c cols rows w = w.
Proof. intros Hs Hu. unfold session_resize. by rewrite Hs, Hu. Qed.

End Input.

(** C1: a connection attached to a session with stored role VIEWER gets
    the error event 'Viewers cannot send input' for its input, and
    neither the manager nor a pty sees a call; with stored role OWNER or
    OPERATOR the input makes one call of the manager's [write] with the
    connection's session and exactly the payload, which reaches the
    [write] of the session's pty when the session is tracked. *)
Theorem C1_input_gated_by_role (w : World) (c : nat) (s : Socket)
    (sid data : jsstring) :
  sockets w !! c = Some s →
  attached_to sid s →
  let w' := Gateway.session_input c data w in
  (sessionRole s = Some VIEWER →
     received c w' = received c w ++ [EvError (lit "Viewers cannot send input")]
     ∧ calls w' = calls w
     ∧ sessions w' = sessions w)
  ∧ (sessionRole s = Some OWNER ∨ sessionRole s = Some OPERATOR →
     writes_of (calls w') = writes_of (calls w) ++ [(sid, data)]
     ∧ ∀ session, sessions w !! sid = Some session →
         pty_writes_of (calls w')
         = pty_writes_of (calls w) ++ [(handle (pty session), data)]).
Proof.
  intros Hs Ha w'. subst w'. split.
  - intros Hr. rewrite (input_viewer c sid data w s Hs Ha Hr).
    by rewrite (received_emit c _ w s Hs).
  - intros Hr.
    assert (sessionRole s ≠ Some VIEWER) as Hnv by (destruct Hr; congruence).
    rewrite (input_forward_calls c sid data w s Hs Ha Hnv).
    destruct (write_calls sid data w) as [Hw Hp]. split; [done|].
    intros session Hsess. by rewrite Hp, Hsess.
Qed.

(** C8: input from a connection that is in no session gets the error
    event 'Not in a session' and makes no call; and when the [write]
    forwarded for an OWNER or OPERATOR throws, the sender gets the error
    event 'Failed to send input' and its session, role and rooms are what
    they were. *)
Theorem C8_input_errors (w : World) (c : nat) (s : Socket) (data : jsstring) :
  sockets w !! c = Some s →
  let w' := Gateway.session_input c data w in
  (unattached s →
     received c w' = received c w ++ [EvError (lit "Not in a session")]
     ∧ calls w' = calls w)
  ∧ (∀ sid e w1,
       attached_to sid s →
       sessionRole s = Some OWNER ∨ sessionRole s = Some OPERATOR →
       PtyManager.write sid data w = Throw e w1 →
       received c w' = received c w ++ [EvError (lit "Failed to send input")]
       ∧ ∃ s', sockets w' !! c = Some s'
               ∧ attached_to sid s'
               ∧ sessionRole s' = sessionRole s
               ∧ rooms s' = rooms s).
Proof.
  intros Hs w'. subst w'. split.
  - intros Hu. rewrite (input_unattached c data w s Hs Hu).
    by rewrite (received_emit c _ w s Hs).
  - intros sid e w1 Ha Hr Hw.
    assert (sessionRole s ≠ Some VIEWER) as Hnv by (destruct Hr; congruence).
    destruct (input_write_failed c sid data e w w1 s Hs Ha Hnv Hw)
      as (Hrec & Hsock & _).
    split; [done|]. eexists. split; [done|]. done.
Qed.

(** C10: a resize from a connection that is in no session changes
    nothing: no event is sent, no call is made, and the connection is as
    it was; an input from the same connection is answered with the error
    event 'Not in a session'. *)
Theorem C10_resize_unattached_ignored (w : World) (c : nat) (s : Socket)
    (cols rows : Z) (data : jsstring) :
  sockets w !! c = Some s →
  unattached s →
  Gateway.session_resize c cols rows w = w
  ∧ received c (Gateway.session_resize c cols rows w) = received c w
  ∧ calls (Gateway.session_resize c cols rows w) = calls w
  ∧ sockets (Gateway.session_resize c cols rows w) !! c = Some s
  ∧ received c (Gateway.session_input c data w)
    = received c w ++ [EvError (lit "Not in a session")].
Proof.
  intros Hs Hu. rewrite (resize_unattached c cols rows w s Hs Hu).
  repeat split; try done.
  rewrite (input_unattached c data w s Hs Hu).
  by rewrite (received_emit c _ w s Hs).
Qed.

(** ** The join handler *)

Section Join.

Import Gateway.

(** The socket of a granted join once lines 53 to 61 have run: session
    and role recorded, room joined, and the buffer sent if it is not
    empty. *)
Lemma join_granted (c : nat) (sid : jsstring) (w : World) (s : Socket)
    (role : SessionRole) :
  sockets w !! c = Some s →
  SessionService.getUserRole sid (userId s) (db w) = Some role →
  let buffer := PtyManager.getBuffer sid w in
  let s1 := attach sid role s in
  let s2 := if JS.truthy buffer then Io.push (EvOutput buffer) s1 else s1 in
  let w2 := set_sockets (insert c s2) w in
  session_join c sid w
  = match (if PtyManager.exists_ sid w then Return w2
           else PtyManager.spawn sid w2) with
    | Return w3 => Io.emit c (EvJoined sid role) w3
    | Throw _ w3 => Io.emit c (EvError (lit "Failed to join session")) w3
    end.
Proof.
  intros Hs Hr buffer s1 s2 w2. unfold session_join. rewrite Hs, Hr.
  change (PtyManager.getBuffer sid (set_sockets (alter (attach sid role) c) w))
    with buffer.
  assert ((if JS.truthy buffer
           then Io.emit c (EvOutput buffer)
                  (set_sockets (alter (attach sid role) c) w)
           else set_sockets (alter (attach sid role) c) w) = w2) as ->.
  { subst w2 s2 s1. unfold Io.emit, set_sockets. cbn.
    destruct (JS.truthy buffer); f_equal; apply map_eq; intros i;
      destruct (decide (i = c)) as [->|Hne];
      rewrite ?lookup_alter_eq, ?lookup_insert_eq, ?Hs;
      rewrite ?lookup_alter_ne, ?lookup_insert_ne by done; done. }
  done.
Qed.

Lemma join_denied (c : nat) (sid : jsstring) (w : World) (s : Socket) :
  sockets w !! c = Some s →
  SessionService.getUserRole sid (userId s) (db w) = None →
  session_join c sid w = Io.emit c (EvError (lit "Access denied")) w.
Proof. intros Hs Hr. unfold session_join. by rewrite Hs, Hr. Qed.

Lemma join_granted_socket (c : nat) (sid : jsstring) (w : World) (s : Socket)
    (role : SessionRole) :
  sockets w !! c = Some s →
  SessionService.getUserRole sid (userId s) (db w) = Some role →
  sockets (session_join c sid w) !! c
  = Some (mkSocket (userId s) (Some sid) (Some role) ({[room sid]} ∪ rooms s)
            (outbox s ++ catch_up (PtyManager.getBuffer sid w)
               ++ [match sessions w !! sid, backend w with
                   | None, NodePty (Some _) =>
                       EvError (lit "Failed to join session")
                   | _, _ => EvJoined sid role
                   end])).
Proof.
  intros Hs Hr. rewrite (join_granted c sid w s role Hs Hr).
  unfold PtyManager.exists_, catch_up.
  assert (∀ ev,
    Io.push ev
      (if JS.truthy (PtyManager.getBuffer sid w)
       then Io.push (EvOutput (PtyManager.getBuffer sid w)) (attach sid role s)
       else attach sid role s)
    = mkSocket (userId s) (Some sid) (Some role) ({[room sid]} ∪ rooms s)
        (outbox s ++ (if JS.truthy (PtyManager.getBuffer sid w)
                      then [EvOutput (PtyManager.getBuffer sid w)] else [])
                  ++ [ev])) as Hpush.
  { intros ev. destruct (JS.truthy _); ssimpl; by rewrite <- ?app_assoc. }
  destruct (sessions w !! sid) as [session|] eqn:Hsess.
  - rewrite bool_decide_true by eauto.
    rewrite lookup_emit. wsimpl. rewrite lookup_insert_eq.
    cbn [fmap option_fmap option_map]. by rewrite Hpush.
  - rewrite bool_decide_false by (by intros [? ?]).
    rewrite spawn_untracked by done. wsimpl.
    destruct (backend w) as [[e|]|] eqn:Hb;
      rewrite lookup_emit; unfold PtyManager.create; wsimpl;
      rewrite lookup_insert_eq; cbn [fmap option_fmap option_map];
      by rewrite Hpush.
Qed.

(** What a granted join does to the manager: nothing when the session is
    tracked; otherwise one [spawn], which creates a pty with a fresh
    record unless node-pty throws. *)
Lemma join_granted_manager (c : nat) (sid : jsstring) (w : World) (s : Socket)
    (role : SessionRole) :
  sockets w !! c = Some s →
  SessionService.getUserRole sid (userId s) (db w) = Some role →
  let w' := session_join c sid w in
  match sessions w !! sid with
  | Some _ => calls w' = calls w ∧ sessions w' = sessions w
  | None =>
      match backend w with
      | NodePty (Some e) =>
          calls w' = calls w ++ [CallSpawn sid] ∧ sessions w' = sessions w
      | NodePty None =>
          calls w' = calls w ++ [CallSpawn sid; PtySpawn (nextHandle w) false]
          ∧ sessions w'
            = <[sid := mkPtySession sid (mkPty (nextHandle w) false None) []]>
                (sessions w)
      | NoNodePty =>
          calls w' = calls w ++ [CallSpawn sid; PtySpawn (nextHandle w) true]
          ∧ sessions w'
            = <[sid := mkPtySession sid (mkPty (nextHandle w) true None) []]>
                (sessions w)
      end
  end.
Proof.
  intros Hs Hr w'. subst w'. rewrite (join_granted c sid w s role Hs Hr).
  unfold PtyManager.exists_.
  destruct (sessions w !! sid) as [session|] eqn:Hsess.
  - by rewrite bool_decide_true by eauto.
  - rewrite bool_decide_false by (by intros [? ?]).
    rewrite spawn_untracked by done. wsimpl.
    destruct (backend w) as [[e|]|]; unfold PtyManager.create, Io.emit;
      wsimpl; by rewrite <- ?app_assoc.
Qed.

(** A join touches no other socket. *)
Lemma join_other_socket (c c' : nat) (sid : jsstring) (w : World) :
  c ≠ c' → sockets (session_join c sid w) !! c' = sockets w !! c'.
Proof.
  intros Hne. unfold session_join.
  destruct (sockets w !! c) as [s|] eqn:Hs; [|done].
  destruct (SessionService.getUserRole sid (userId s) (db w)) as [role|].
  - assert (∀ ev w0, sockets (Io.emit c ev w0) !! c' = sockets w0 !! c') as He.
    { intros ev w0. unfold Io.emit. wsimpl. by rewrite lookup_alter_ne. }
    assert (∀ w0, sockets w0 !! c' = sockets w !! c' →
              sockets (world_of (PtyManager.spawn sid w0)) !! c'
              = sockets w !! c') as Hsp.
    { intros w0 H0. unfold PtyManager.spawn, PtyManager.create. wsimpl.
      case_decide; [done|]. by destruct (backend w0) as [[e|]|]. }
    set (w1 := set_sockets (alter (attach sid role) c) w).
    assert (sockets w1 !! c' = sockets w !! c') as H1.
    { subst w1. wsimpl. by rewrite lookup_alter_ne. }
    set (w2 := if JS.truthy (PtyManager.getBuffer sid w1)
               then Io.emit c (EvOutput (PtyManager.getBuffer sid w1)) w1
               else w1).
    assert (sockets w2 !! c' = sockets w !! c') as H2.
    { subst w2. destruct (JS.truthy _); [by rewrite He|done]. }
    destruct (PtyManager.exists_ sid w2).
    + by rewrite He.
    + specialize (Hsp w2 H2).
      destruct (PtyManager.spawn sid w2); wsimpl; by rewrite He.
  - unfold Io.emit. wsimpl. by rewrite lookup_alter_ne.
Qed.

(** A socket in the room of a session is sent every output of a run, in
    order, and nothing else. *)
Lemma received_run_outputs (c : nat) (sid : jsstring)
    (outs : list (nat * jsstring)) :
  ∀ (w : World) (s : Socket),
    sockets w !! c = Some s → room sid ∈ rooms s →
    received c (run_outputs sid outs w)
    = received c w ++ (EvOutput <$> outs.*2).
Proof.
  induction outs as [|[h d] outs IH]; intros w s Hs Hin.
  - by rewrite app_nil_r.
  - cbn [run_outputs foldl]. cbn [fst snd].
    destruct (rooms_to_emit c (room sid) (EvOutput d) w s Hs)
      as (s' & Hs' & Hrooms & _).
    rewrite <- sockets_onData with (h := h) in Hs'.
    fold (run_outputs sid outs (PtyManager.onData sid h d w)).
    rewrite (IH _ s' Hs') by by rewrite Hrooms.
    rewrite (received_onData_in c sid h d w s Hs Hin).
    by rewrite <- app_assoc.
Qed.

End Join.

(** ** Sockets stay in the room of the session they record *)

Section Invariant.

Lemma same_members_refl (w : World) : same_members w w.
Proof. by intros c. Qed.

Lemma same_members_trans (w1 w2 w3 : World) :
  same_members w1 w2 → same_members w2 w3 → same_members w1 w3.
Proof. intros H12 H23 c. by rewrite H23, H12. Qed.

Lemma same_members_emit (c : nat) (ev : ServerEvent) (w : World) :
  same_members w (Io.emit c ev w).
Proof.
  intros c'. unfold Io.emit. wsimpl.
  destruct (decide (c = c')) as [->|Hne].
  - rewrite lookup_alter_eq. by destruct (sockets w !! c').
  - by rewrite lookup_alter_ne.
Qed.

Lemma same_members_to_emit (rm : jsstring) (ev : ServerEvent) (w : World) :
  same_members w (Io.to_emit rm ev w).
Proof.
  intros c. rewrite lookup_to_emit.
  destruct (sockets w !! c) as [s|]; [|done].
  cbn [fmap option_fmap option_map]. by case_decide.
Qed.

Lemma same_members_sockets (w w' : World) :
  sockets w' = sockets w → same_members w w'.
Proof. intros Heq c. by rewrite Heq. Qed.

Lemma same_members_onData (sid : jsstring) (h : nat) (data : jsstring)
    (w : World) :
  same_members w (PtyManager.onData sid h data w).
Proof.
  eapply same_members_trans; [apply (same_members_to_emit (room sid))|].
  apply same_members_sockets, sockets_onData.
Qed.

Lemma same_members_onExit (sid : jsstring) (code : Z) (w : World) :
  same_members w (PtyManager.onExit sid code w).
Proof. apply (same_members_to_emit (room sid) (EvExit code) w). Qed.

Lemma same_members_write (sid data : jsstring) (w : World) :
  same_members w (world_of (PtyManager.write sid data w)).
Proof.
  unfold PtyManager.write, PtyManager.pty_write. wsimpl.
  destruct (sessions w !! sid) as [session|]; [|by apply same_members_sockets].
  destruct (mock (pty session)).
  - apply (same_members_onData sid (handle (pty session)) data
             (record _ (record _ w))).
  - by destruct (fault (pty session)); apply same_members_sockets.
Qed.

Lemma same_members_input (c : nat) (data : jsstring) (w : World) :
  same_members w (Gateway.session_input c data w).
Proof.
  unfold Gateway.session_input.
  destruct (sockets w !! c) as [s|]; [|apply same_members_refl].
  destruct (JS.truthy_opt (sessionId s)) as [sid|];
    [|apply same_members_emit].
  case_decide; [apply same_members_emit|].
  pose proof (same_members_write sid data w) as Hw.
  destruct (PtyManager.write sid data w) as [w1|e w1]; [done|].
  eapply same_members_trans; [exact Hw|apply same_members_emit].
Qed.

Lemma same_members_resize (c : nat) (cols rows : Z) (w : World) :
  same_members w (Gateway.session_resize c cols rows w).
Proof.
  unfold Gateway.session_resize.
  destruct (sockets w !! c) as [s|]; [|apply same_members_refl].
  destruct (JS.truthy_opt (sessionId s)) as [sid|]; [|apply same_members_refl].
  apply same_members_sockets.
  unfold PtyManager.resize, PtyManager.pty_resize. wsimpl.
  destruct (sessions w !! sid) as [session|]; [|done].
  destruct (mock (pty session)); [done|]. by destruct (fault (pty session)).
Qed.

Lemma in_own_room_same_members (w w' : World) :
  same_members w w' → in_own_room w → in_own_room w'.
Proof.
  intros Hm Hinv c s' sid Hs' Hsid. specialize (Hm c). rewrite Hs' in Hm.
  destruct (sockets w !! c) as [s|] eqn:Hs; [|done].
  injection Hm as Hid Hrooms. rewrite Hrooms.
  apply (Hinv c s sid Hs). congruence.
Qed.

Lemma in_own_room_join (c : nat) (sid : jsstring) (w : World) :
  in_own_room w → in_own_room (Gateway.session_join c sid w).
Proof.
  intros Hinv c' s' sid' Hs' Hsid.
  destruct (decide (c = c')) as [<-|Hne].
  - destruct (sockets w !! c) as [s|] eqn:Hs.
    + destruct (SessionService.getUserRole sid (userId s) (db w))
        as [role|] eqn:Hr.
      * rewrite (join_granted_socket c sid w s role Hs Hr) in Hs'.
        injection Hs' as <-. cbn in Hsid. injection Hsid as <-.
        cbn [rooms]. apply elem_of_union_l. by apply elem_of_singleton.
      * rewrite (join_denied c sid w s Hs Hr), lookup_emit, Hs in Hs'.
        injection Hs' as <-. by apply (Hinv c s sid' Hs).
    + unfold Gateway.session_join in Hs'. rewrite Hs in Hs'. congruence.
  - rewrite join_other_socket in Hs' by done. by apply (Hinv c' s' sid').
Qed.

Lemma in_own_room_leave (c : nat) (w : World) :
  in_own_room w → in_own_room (Gateway.session_leave c w).
Proof.
  intros Hinv c' s' sid' Hs' Hsid. unfold Gateway.session_leave in Hs'.
  destruct (sockets w !! c) as [s|] eqn:Hs; [|by apply (Hinv c' s' sid')].
  destruct (JS.truthy_opt (sessionId s)) as [sid|];
    [|by apply (Hinv c' s' sid')].
  wsimpl. destruct (decide (c = c')) as [<-|Hne].
  - rewrite lookup_alter_eq, Hs in Hs'. injection Hs' as <-. done.
  - rewrite lookup_alter_ne in Hs' by done. by apply (Hinv c' s' sid').
Qed.

Lemma in_own_room_step (w : World) (e : Event) :
  in_own_room w → in_own_room (step w e).
Proof.
  destruct e as [c sid|c data|c cols rows|c|sid h data|sid code]; cbn [step].
  - apply in_own_room_join.
  - apply in_own_room_same_members, same_members_input.
  - apply in_own_room_same_members, same_members_resize.
  - apply in_own_room_leave.
  - apply in_own_room_same_members, same_members_onData.
  - apply in_own_room_same_members, same_members_onExit.
Qed.

Lemma in_own_room_run (es : list Event) :
  ∀ w : World, in_own_room w → in_own_room (run es w).
Proof.
  induction es as [|e es IH]; intros w Hinv; [done|].
  apply (IH (step w e)). by apply in_own_room_step.
Qed.

(** Before anyone has joined, no socket records a session. *)
Lemma in_own_room_start (b : Backend) : in_own_room (Demo.start b).
Proof.
  intros c s sid Hs Hsid. unfold Demo.start, Demo.connected in Hs. wsimpl.
  repeat (apply lookup_insert_Some in Hs as [[_ <-]|[_ Hs]]; [done|]).
  done.
Qed.

End Invariant.

(** C5, as the code has it: a client whose join is accepted is sent the
    whole replay buffer as one output event when the buffer is not empty,
    and no output event at all when it is empty; the confirmation
    follows, and from then on the client is sent one output event for
    every output of the session, in order. *)
Theorem C5_catch_up_then_live (w : World) (c : nat) (s : Socket)
    (sid : jsstring) (role : SessionRole) (outs : list (nat * jsstring)) :
  sockets w !! c = Some s →
  SessionService.getUserRole sid (userId s) (db w) = Some role →
  is_Some (sessions w !! sid) ∨ (∀ e, backend w ≠ NodePty (Some e)) →
  let buffer := PtyManager.getBuffer sid w in
  let w' := Gateway.session_join c sid w in
  received c w' = received c w ++ catch_up buffer ++ [EvJoined sid role]
  ∧ outputs_of (catch_up buffer ++ [EvJoined sid role])
    = (if JS.truthy buffer then [buffer] else [])
  ∧ received c (run_outputs sid outs w')
    = received c w' ++ (EvOutput <$> outs.*2).
Proof.
  intros Hs Hr Hok buffer w'.
  pose proof (join_granted_socket c sid w s role Hs Hr) as Hs'.
  assert (match sessions w !! sid, backend w with
          | None, NodePty (Some _) => EvError (lit "Failed to join session")
          | _, _ => EvJoined sid role
          end = EvJoined sid role) as Hev.
  { destruct (sessions w !! sid) as [?|] eqn:Hsess; [done|].
    destruct Hok as [[? ?]|Hok]; [done|].
    destruct (backend w) as [[e|]|]; [by destruct (Hok e)|done|done]. }
  rewrite Hev in Hs'. fold w' buffer in Hs'. split; [|split].
  - unfold received at 1. rewrite Hs'. unfold received. by rewrite Hs.
  - unfold catch_up. by destruct (JS.truthy buffer).
  - apply (received_run_outputs c sid outs w' _ Hs'). cbn [rooms].
    apply elem_of_union_l. by apply elem_of_singleton.
Qed.

(** C6: when the pty of a session exits with [code], every socket in the
    session's room is sent one exit event with that code and no other
    socket is sent anything; where sockets are in the room of the session
    they record, as they are in every run of the server, this includes
    every socket that records the session.  The session's record is gone
    from the map, and the next accepted join to the session calls
    [spawn], which creates a new pty with an empty buffer under the
    session's identifier. *)
Theorem C6_exit_broadcast_and_respawn (w : World) (sid : jsstring) (code : Z) :
  let w' := PtyManager.onExit sid code w in
  (∀ (c : nat) (s : Socket), sockets w !! c = Some s → room sid ∈ rooms s →
     received c w' = received c w ++ [EvExit code])
  ∧ (∀ (c : nat) (s : Socket), sockets w !! c = Some s → room sid ∉ rooms s →
     received c w' = received c w)
  ∧ (in_own_room w →
     ∀ (c : nat) (s : Socket), sockets w !! c = Some s →
       sessionId s = Some sid →
       received c w' = received c w ++ [EvExit code])
  ∧ sessions w' !! sid = None
  ∧ PtyManager.exists_ sid w' = false
  ∧ (∀ (c : nat) (s : Socket) (role : SessionRole) (isMock : bool),
       sockets w !! c = Some s →
       SessionService.getUserRole sid (userId s) (db w) = Some role →
       backend w = (if isMock then NoNodePty else NodePty None) →
       let w'' := Gateway.session_join c sid w' in
       calls w'' = calls w' ++ [CallSpawn sid; PtySpawn (nextHandle w) isMock]
       ∧ sessions w'' !! sid
         = Some (mkPtySession sid (mkPty (nextHandle w) isMock None) [])
       ∧ ∃ evs, received c w'' = received c w' ++ evs
                ∧ last evs = Some (EvJoined sid role)).
Proof.
  intros w'.
  assert (sessions w' !! sid = None) as Hgone.
  { subst w'. unfold PtyManager.onExit. wsimpl. apply lookup_delete_eq. }
  assert (∀ c, received c w'
               = received c (Io.to_emit (room sid) (EvExit code) w)) as Hrec.
  { done. }
  split; [|split; [|split; [|split; [|split]]]].
  - intros c s Hs Hin. rewrite Hrec. by apply received_to_emit_in with s.
  - intros c s Hs Hin. rewrite Hrec. by apply received_to_emit_out with s.
  - intros Hinv c s Hs Hsid. rewrite Hrec.
    apply received_to_emit_in with s; [done|]. by apply (Hinv c s sid).
  - done.
  - unfold PtyManager.exists_. rewrite Hgone.
    apply bool_decide_false. by intros [? ?].
  - intros c s role isMock Hs Hr Hb w''.
    destruct (rooms_to_emit c (room sid) (EvExit code) w s Hs)
      as (s' & Hs' & _ & _ & _ & Hu).
    change (sockets (Io.to_emit (room sid) (EvExit code) w))
      with (sockets w') in Hs'.
    assert (SessionService.getUserRole sid (userId s') (db w') = Some role)
      as Hr' by by rewrite Hu.
    pose proof (join_granted_manager c sid w' s' role Hs' Hr') as Hm.
    pose proof (join_granted_socket c sid w' s' role Hs' Hr') as Hsock.
    cbn zeta in Hm. rewrite Hgone in Hm, Hsock.
    change (backend w') with (backend w) in *.
    change (nextHandle w') with (nextHandle w) in *.
    fold w'' in Hm, Hsock.
    assert (match backend w with
            | NodePty (Some _) => EvError (lit "Failed to join session")
            | _ => EvJoined sid role
            end = EvJoined sid role) as Hev.
    { rewrite Hb. by destruct isMock. }
    rewrite Hev in Hsock.
    assert (calls w'' = calls w' ++ [CallSpawn sid; PtySpawn (nextHandle w) isMock]
            ∧ sessions w'' !! sid
              = Some (mkPtySession sid (mkPty (nextHandle w) isMock None) []))
      as [Hc Hse].
    { rewrite Hb in Hm. destruct isMock; destruct Hm as [-> ->];
        by rewrite lookup_insert_eq. }
    split; [done|]. split; [done|].
    exists (catch_up (PtyManager.getBuffer sid w') ++ [EvJoined sid role]).
    split.
    + unfold received. by rewrite Hsock, Hs'.
    + by rewrite last_snoc.
Qed.

(** C9: when access is granted and [spawn] throws during the join, the
    client is sent the error event 'Failed to join session', yet its
    socket holds the session and the role and is in the session's room,
    and no session is tracked.  An input that follows is answered by
    role: 'Viewers cannot send input' for a VIEWER, and for the other
    roles a call of [write], which fails with 'Failed to send input';
    never 'Not in a session'. *)
Theorem C9_join_not_atomic (w : World) (c : nat) (s : Socket)
    (sid e data : jsstring) (role : SessionRole) :
  sockets w !! c = Some s →
  SessionService.getUserRole sid (userId s) (db w) = Some role →
  sessions w !! sid = None →
  backend w = NodePty (Some e) →
  sid ≠ [] →
  let w' := Gateway.session_join c sid w in
  let w'' := Gateway.session_input c data w' in
  received c w' = received c w ++ [EvError (lit "Failed to join session")]
  ∧ (∃ s', sockets w' !! c = Some s'
           ∧ attached_to sid s'
           ∧ sessionRole s' = Some role
           ∧ room sid ∈ rooms s')
  ∧ sessions w' !! sid = None
  ∧ (role = VIEWER →
       received c w'' = received c w' ++ [EvError (lit "Viewers cannot send input")]
       ∧ calls w'' = calls w')
  ∧ (role ≠ VIEWER →
       received c w'' = received c w' ++ [EvError (lit "Failed to send input")]
       ∧ writes_of (calls w'') = writes_of (calls w') ++ [(sid, data)])
  ∧ received c w'' ≠ received c w' ++ [EvError (lit "Not in a session")].
Proof.
  intros Hs Hr Hnone Hb Hsid w' w''.
  pose proof (join_granted_socket c sid w s role Hs Hr) as Hs'.
  pose proof (join_granted_manager c sid w s role Hs Hr) as Hm.
  cbn zeta in Hm. rewrite Hnone, Hb in Hm, Hs'. destruct Hm as [Hcalls Hsess].
  fold w' in Hs', Hcalls, Hsess.
  assert (PtyManager.getBuffer sid w = []) as Hbuf.
  { unfold PtyManager.getBuffer. by rewrite Hnone. }
  rewrite Hbuf in Hs'. unfold catch_up in Hs'. cbn [JS.truthy app] in Hs'.
  set (s' := mkSocket _ _ _ _ _) in Hs'.
  assert (attached_to sid s') as Ha.
  { apply attached_to_inv. by split. }
  assert (sessions w' !! sid = None) as Hnone' by by rewrite Hsess.
  assert (received c w' = received c w ++ [EvError (lit "Failed to join session")])
    as Hrec.
  { unfold received. by rewrite Hs', Hs. }
  assert (role = VIEWER →
          received c w'' = received c w' ++ [EvError (lit "Viewers cannot send input")]
          ∧ calls w'' = calls w') as Hviewer.
  { intros ->. subst w''.
    rewrite (input_viewer c sid data w' s' Hs' Ha eq_refl).
    by rewrite (received_emit c _ w' s' Hs'). }
  assert (role ≠ VIEWER →
          received c w'' = received c w' ++ [EvError (lit "Failed to send input")]
          ∧ writes_of (calls w'') = writes_of (calls w') ++ [(sid, data)])
    as Hdrive.
  { intros Hnv. subst w''.
    assert (sessionRole s' ≠ Some VIEWER) as Hnv' by (cbn; congruence).
    destruct (proj2 (write_throws_iff sid data w') (or_introl Hnone'))
      as (e' & w1 & Hw).
    destruct (input_write_failed c sid data e' w' w1 s' Hs' Ha Hnv' Hw)
      as (Hr1 & _ & _).
    split; [done|].
    rewrite (input_forward_calls c sid data w' s' Hs' Ha Hnv').
    apply write_calls. }
  split; [done|]. split; [|split; [done|split; [done|split; [done|]]]].
  - exists s'. repeat split; try done. subst s'. cbn [rooms].
    apply elem_of_union_l. by apply elem_of_singleton.
  - destruct (decide (role = VIEWER)) as [Hv|Hv].
    + rewrite (proj1 (Hviewer Hv)). intros Hq%app_inv_head.
      by vm_compute in Hq.
    + rewrite (proj1 (Hdrive Hv)). intros Hq%app_inv_head.
      by vm_compute in Hq.
Qed.

(** C4, as the code has it: the role of a join is the stored role of the
    user's membership and nothing else.  Without a membership the join is
    refused with 'Access denied' and changes nothing but the client's
    outbox, whatever the global role of the account; with VIEWER the
    connection is attached and its input is refused; with OWNER or
    OPERATOR the connection is attached and its input is forwarded to
    [write]. *)
Theorem C4_role_resolution (w : World) (c : nat) (s : Socket)
    (sid data : jsstring) :
  sockets w !! c = Some s →
  sid ≠ [] →
  let w' := Gateway.session_join c sid w in
  let w'' := Gateway.session_input c data w' in
  match SessionService.getUserRole sid (userId s) (db w) with
  | None =>
      received c w' = received c w ++ [EvError (lit "Access denied")]
      ∧ sockets w' !! c = Some (Io.push (EvError (lit "Access denied")) s)
      ∧ sessions w' = sessions w
      ∧ calls w' = calls w
  | Some role =>
      (∃ s', sockets w' !! c = Some s'
             ∧ attached_to sid s' ∧ sessionRole s' = Some role)
      ∧ match role with
        | VIEWER =>
            received c w''
            = received c w' ++ [EvError (lit "Viewers cannot send input")]
            ∧ calls w'' = calls w'
        | OWNER | OPERATOR =>
            writes_of (calls w'') = writes_of (calls w') ++ [(sid, data)]
        end
  end.
Proof.
  intros Hs Hsid w' w''.
  destruct (SessionService.getUserRole sid (userId s) (db w)) as [role|] eqn:Hr.
  - pose proof (join_granted_socket c sid w s role Hs Hr) as Hs'.
    fold w' in Hs'. set (s' := mkSocket _ _ _ _ _) in Hs'.
    assert (attached_to sid s') as Ha by (apply attached_to_inv; by split).
    split; [by exists s'|].
    assert (role ≠ VIEWER →
            writes_of (calls w'') = writes_of (calls w') ++ [(sid, data)]) as Hd.
    { intros Hnv. subst w''.
      assert (sessionRole s' ≠ Some VIEWER) as Hnv' by (cbn; congruence).
      rewrite (input_forward_calls c sid data w' s' Hs' Ha Hnv').
      apply write_calls. }
    destruct role; [by apply Hd|by apply Hd|].
    subst w''. rewrite (input_viewer c sid data w' s' Hs' Ha eq_refl).
    by rewrite (received_emit c _ w' s' Hs').
  - subst w'. rewrite (join_denied c sid w s Hs Hr).
    rewrite (received_emit c _ w s Hs), lookup_emit, Hs. done.
Qed.

(** C4 fails as stated: root is an administrator and not a member of the
    session; the specification's gate lets root observe, but the join is
    refused, root's socket stays out of the session and its room, and an
    output of the session does not reach it. *)
Lemma C4_admin_is_refused :
  users Demo.database !! Demo.root = Some User.ADMIN
  ∧ resolveRole_spec Demo.sA Demo.root Demo.database = OBSERVE
  ∧ received 2 Demo.root_asks_A = [EvError (lit "Access denied")]
  ∧ sockets Demo.root_asks_A !! 2
    = Some (mkSocket Demo.root None None ∅ [EvError (lit "Access denied")])
  ∧ received 2 (PtyManager.onData Demo.sA 0 Demo.hello Demo.root_asks_A)
    = [EvError (lit "Access denied")].
Proof. by vm_compute. Qed.

(** C3 fails on the code: alice, attached to the first session, joins
    the second.  Her socket then records the second session only, but it
    is still in the room of the first: an output of the first session is
    sent to her, and [session:leave] leaves the second room and not the
    first. *)
Theorem C3_join_keeps_old_room :
  sockets Demo.alice_in_A !! 0 = Some Demo.alice_socket
  ∧ (∃ s2, sockets Demo.alice_in_B !! 0 = Some s2
           ∧ sessionId s2 = Some Demo.sB
           ∧ rooms s2 = {[room Demo.sA; room Demo.sB]})
  ∧ received 0 (PtyManager.onData Demo.sA 0 Demo.hello Demo.alice_in_B)
    = received 0 Demo.alice_in_B ++ [EvOutput Demo.hello]
  ∧ (∃ s3, sockets Demo.alice_left !! 0 = Some s3
           ∧ sessionId s3 = None
           ∧ rooms s3 = {[room Demo.sA]})
  ∧ received 0 (PtyManager.onData Demo.sA 0 Demo.hello Demo.alice_left)
    = received 0 Demo.alice_left ++ [EvOutput Demo.hello].
Proof.
  split; [by vm_compute|]. split.
  { eexists. split; [by vm_compute|]. split; by vm_compute. }
  split; [by vm_compute|]. split.
  { eexists. split; [by vm_compute|]. split; by vm_compute. }
  by vm_compute.
Qed.

(** C5 fails as stated: bob joins a session whose pty has been spawned
    and has not produced output yet; he is sent the confirmation and no
    output event, where the claim has one output event with the (empty)
    buffer. *)
Lemma C5_no_empty_catch_up :
  PtyManager.exists_ Demo.sA Demo.alice_in_A = true
  ∧ PtyManager.getBuffer Demo.sA Demo.alice_in_A = []
  ∧ received 1 Demo.both_in_A = [EvJoined Demo.sA VIEWER]
  ∧ outputs_of (received 1 Demo.both_in_A) = []
  ∧ outputs_of (received 1 Demo.both_in_A)
    ≠ [PtyManager.getBuffer Demo.sA Demo.alice_in_A].
Proof. by vm_compute. Qed.

(** * The properties on the small deployment *)

Lemma C1_witness :
  sockets Demo.both_in_A !! 1 = Some Demo.bob_socket
  ∧ attached_to Demo.sA Demo.bob_socket
  ∧ calls (Gateway.session_input 1 (lit "ls") Demo.both_in_A)
    = calls Demo.both_in_A
  ∧ sockets Demo.both_in_A !! 0 = Some Demo.alice_socket
  ∧ attached_to Demo.sA Demo.alice_socket
  ∧ pty_writes_of (calls (Gateway.session_input 0 (lit "ls") Demo.both_in_A))
    = pty_writes_of (calls Demo.both_in_A) ++ [(0, lit "ls")].
Proof.
  assert (sockets Demo.both_in_A !! 1 = Some Demo.bob_socket) as Hb
    by (vm_compute; reflexivity).
  assert (sockets Demo.both_in_A !! 0 = Some Demo.alice_socket) as Ha
    by (vm_compute; reflexivity).
  assert (attached_to Demo.sA Demo.bob_socket) as Hab by reflexivity.
  assert (attached_to Demo.sA Demo.alice_socket) as Haa by reflexivity.
  destruct (C1_input_gated_by_role _ 1 _ Demo.sA (lit "ls") Hb Hab)
    as [Hviewer _].
  destruct (C1_input_gated_by_role _ 0 _ Demo.sA (lit "ls") Ha Haa)
    as [_ Hdrive].
  split; [exact Hb|]. split; [exact Hab|].
  split; [exact (proj1 (proj2 (Hviewer eq_refl)))|].
  split; [exact Ha|]. split; [exact Haa|].
  apply (proj2 (Hdrive (or_introl eq_refl)) Demo.sessionA).
  vm_compute; reflexivity.
Defined.

Lemma C2_witness :
  sessions Demo.alice_in_A !! Demo.sA = Some Demo.sessionA
  ∧ length (PtyManager.getBuffer Demo.sA
              (PtyManager.onData Demo.sA 0 (repeat 120%N 10001)
                 (run_outputs Demo.sA [(0, Demo.hello)] Demo.alice_in_A)))
    ≤ 10000.
Proof.
  assert (sessions Demo.alice_in_A !! Demo.sA = Some Demo.sessionA) as Hs
    by (vm_compute; reflexivity).
  split; [exact Hs|].
  apply (C2_replay_buffer_bounded Demo.alice_in_A Demo.sA Demo.sessionA
           [Demo.hello] (repeat 120%N 10001) Hs).
Defined.

Lemma C4_witness :
  sockets (Demo.start NoNodePty) !! 2 = Some (Demo.fresh Demo.root)
  ∧ Demo.sA ≠ []
  ∧ calls (Gateway.session_join 2 Demo.sA (Demo.start NoNodePty)) = []
  ∧ sockets (Demo.start NoNodePty) !! 1 = Some (Demo.fresh Demo.bob)
  ∧ calls (Gateway.session_input 1 (lit "ls")
             (Gateway.session_join 1 Demo.sA (Demo.start NoNodePty)))
    = calls (Gateway.session_join 1 Demo.sA (Demo.start NoNodePty)).
Proof.
  assert (sockets (Demo.start NoNodePty) !! 2 = Some (Demo.fresh Demo.root))
    as Hroot by (vm_compute; reflexivity).
  assert (sockets (Demo.start NoNodePty) !! 1 = Some (Demo.fresh Demo.bob))
    as Hbob by (vm_compute; reflexivity).
  assert (Demo.sA ≠ []) as Hne by (vm_compute; discriminate).
  pose proof (C4_role_resolution _ 2 _ Demo.sA (lit "ls") Hroot Hne) as H2.
  pose proof (C4_role_resolution _ 1 _ Demo.sA (lit "ls") Hbob Hne) as H1.
  split; [exact Hroot|]. split; [exact Hne|].
  split; [exact (proj2 (proj2 (proj2 H2)))|].
  split; [exact Hbob|].
  exact (proj2 (proj2 H1)).
Defined.

Lemma C5_witness :
  sockets Demo.greeted !! 1 = Some (Demo.fresh Demo.bob)
  ∧ SessionService.getUserRole Demo.sA Demo.bob (db Demo.greeted) = Some VIEWER
  ∧ is_Some (sessions Demo.greeted !! Demo.sA)
  ∧ received 1 (Gateway.session_join 1 Demo.sA Demo.greeted)
    = [EvOutput Demo.hello; EvJoined Demo.sA VIEWER]
  ∧ received 1 (run_outputs Demo.sA [(0, lit "a"); (0, lit "b")]
                  (Gateway.session_join 1 Demo.sA Demo.greeted))
    = [EvOutput Demo.hello; EvJoined Demo.sA VIEWER;
       EvOutput (lit "a"); EvOutput (lit "b")].
Proof.
  assert (sockets Demo.greeted !! 1 = Some (Demo.fresh Demo.bob)) as Hs
    by (vm_compute; reflexivity).
  assert (SessionService.getUserRole Demo.sA (userId (Demo.fresh Demo.bob))
            (db Demo.greeted) = Some VIEWER) as Hr
    by (vm_compute; reflexivity).
  assert (is_Some (sessions Demo.greeted !! Demo.sA)) as Hsome
    by (vm_compute; eauto).
  destruct (C5_catch_up_then_live Demo.greeted 1 _ Demo.sA VIEWER
              [(0, lit "a"); (0, lit "b")] Hs Hr (or_introl Hsome))
    as (Hjoin & _ & Hlive).
  split; [exact Hs|]. split; [exact Hr|]. split; [exact Hsome|].
  split.
  - rewrite Hjoin. vm_compute; reflexivity.
  - rewrite Hlive, Hjoin. vm_compute; reflexivity.
Defined.

Lemma C6_witness :
  received 0 (PtyManager.onExit Demo.sA 1 Demo.both_in_A)
  = [EvJoined Demo.sA OWNER; EvExit 1]
  ∧ received 1 (PtyManager.onExit Demo.sA 1 Demo.both_in_A)
    = [EvJoined Demo.sA VIEWER; EvExit 1]
  ∧ sessions (Gateway.session_join 1 Demo.sA
                (PtyManager.onExit Demo.sA 1 Demo.both_in_A)) !! Demo.sA
    = Some (mkPtySession Demo.sA (mkPty 1 true None) []).
Proof.
  destruct (C6_exit_broadcast_and_respawn Demo.both_in_A Demo.sA 1)
    as (Hin & _ & _ & _ & _ & Hjoin).
  split; [|split].
  - rewrite (Hin 0 Demo.alice_socket); vm_compute; reflexivity.
  - rewrite (Hin 1 Demo.bob_socket); vm_compute; reflexivity.
  - apply (Hjoin 1 Demo.bob_socket VIEWER true); vm_compute; reflexivity.
Defined.

Lemma C7_witness :
  sessions Demo.alice_in_A !! Demo.sA = Some Demo.sessionA
  ∧ ∃ w', PtyManager.spawn Demo.sA Demo.alice_in_A
          = Throw (lit "Session already exists") w'
          ∧ sessions w' = sessions Demo.alice_in_A
          ∧ sessions w' !! Demo.sA = Some Demo.sessionA
          ∧ pty_spawns_of (calls w') = pty_spawns_of (calls Demo.alice_in_A)
          ∧ nextHandle w' = nextHandle Demo.alice_in_A
          ∧ sockets w' = sockets Demo.alice_in_A.
Proof.
  assert (sessions Demo.alice_in_A !! Demo.sA = Some Demo.sessionA) as Hs
    by (vm_compute; reflexivity).
  split; [exact Hs|].
  apply (C7_spawn_already_exists Demo.alice_in_A Demo.sA Demo.sessionA Hs).
Defined.

Lemma C8_witness :
  sockets (Demo.start NoNodePty) !! 0 = Some (Demo.fresh Demo.alice)
  ∧ unattached (Demo.fresh Demo.alice)
  ∧ received 0 (Gateway.session_input 0 (lit "ls") (Demo.start NoNodePty))
    = [EvError (lit "Not in a session")]
  ∧ sockets Demo.alice_failed_A !! 0 = Some Demo.alice_failed_socket
  ∧ attached_to Demo.sA Demo.alice_failed_socket
  ∧ received 0 (Gateway.session_input 0 (lit "ls") Demo.alice_failed_A)
    = [EvError (lit "Failed to join session");
       EvError (lit "Failed to send input")].
Proof.
  assert (sockets (Demo.start NoNodePty) !! 0 = Some (Demo.fresh Demo.alice))
    as Hs by (vm_compute; reflexivity).
  assert (sockets Demo.alice_failed_A !! 0 = Some Demo.alice_failed_socket)
    as Hf by (vm_compute; reflexivity).
  assert (unattached (Demo.fresh Demo.alice)) as Hu by reflexivity.
  assert (attached_to Demo.sA Demo.alice_failed_socket) as Ha by reflexivity.
  destruct (C8_input_errors _ 0 _ (lit "ls") Hs) as [Hun _].
  destruct (C8_input_errors _ 0 _ (lit "ls") Hf) as [_ Hfail].
  split; [exact Hs|]. split; [exact Hu|]. split; [|split; [exact Hf|]].
  - rewrite (proj1 (Hun Hu)). vm_compute; reflexivity.
  - split; [exact Ha|].
    rewrite (proj1 (Hfail Demo.sA (lit "Session not found")
                      (record (CallWrite Demo.sA (lit "ls")) Demo.alice_failed_A)
                      Ha (or_introl eq_refl)
                      ltac:(vm_compute; reflexivity))).
    vm_compute; reflexivity.
Defined.

Lemma C9_witness :
  sockets (Demo.start (NodePty (Some Demo.enoent))) !! 0
  = Some (Demo.fresh Demo.alice)
  ∧ SessionService.getUserRole Demo.sA Demo.alice Demo.database = Some OWNER
  ∧ sessions (Demo.start (NodePty (Some Demo.enoent))) !! Demo.sA = None
  ∧ Demo.sA ≠ []
  ∧ received 0 Demo.alice_failed_A = [EvError (lit "Failed to join session")]
  ∧ received 0 (Gateway.session_input 0 (lit "ls") Demo.alice_failed_A)
    = [EvError (lit "Failed to join session");
       EvError (lit "Failed to send input")].
Proof.
  assert (sockets (Demo.start (NodePty (Some Demo.enoent))) !! 0
          = Some (Demo.fresh Demo.alice)) as Hs by (vm_compute; reflexivity).
  assert (SessionService.getUserRole Demo.sA Demo.alice Demo.database
          = Some OWNER) as Hr by (vm_compute; reflexivity).
  assert (sessions (Demo.start (NodePty (Some Demo.enoent))) !! Demo.sA = None)
    as Hn by (vm_compute; reflexivity).
  assert (Demo.sA ≠ []) as Hne by (vm_compute; discriminate).
  destruct (C9_join_not_atomic _ 0 _ Demo.sA Demo.enoent (lit "ls") OWNER
              Hs Hr Hn eq_refl Hne) as (Hjoin & _ & _ & _ & Hdrive & _).
  split; [exact Hs|]. split; [exact Hr|]. split; [exact Hn|].
  split; [exact Hne|]. split.
  - exact Hjoin.
  - unfold Demo.alice_failed_A.
    rewrite (proj1 (Hdrive ltac:(discriminate))), Hjoin. reflexivity.
Defined.

Lemma C10_witness :
  sockets (Demo.start NoNodePty) !! 0 = Some (Demo.fresh Demo.alice)
  ∧ unattached (Demo.fresh Demo.alice)
  ∧ Gateway.session_resize 0 80 24 (Demo.start NoNodePty)
    = Demo.start NoNodePty.
Proof.
  assert (sockets (Demo.start NoNodePty) !! 0 = Some (Demo.fresh Demo.alice))
    as Hs by (vm_compute; reflexivity).
  assert (unattached (Demo.fresh Demo.alice)) as Hu by reflexivity.
  split; [exact Hs|]. split; [exact Hu|].
  apply (C10_resize_unattached_ignored _ 0 _ 80 24 (lit "ls") Hs Hu).
Defined.

(** * Further properties of the gateway and the manager *)

(** ** Leaving and disconnecting *)

Section Leave.

Import Gateway.

Lemma leave_attached (c : nat) (sid : jsstring) (w : World) (s : Socket) :
  sockets w !! c = Some s → attached_to sid s →
  session_leave c w = set_sockets (alter (detach sid) c) w.
Proof. intros Hs Ha. unfold session_leave. by rewrite Hs, Ha. Qed.

Lemma leave_unattached (c : nat) (w : World) (s : Socket) :
  sockets w !! c = Some s → unattached s → session_leave c w = w.
Proof. intros Hs Hu. unfold session_leave. by rewrite Hs, Hu. Qed.

(** What a socket is sent during a run of outputs depends on that socket
    alone. *)
Lemma received_run_outputs_local (c : nat) (sid : jsstring)
    (outs : list (nat * jsstring)) :
  ∀ w1 w2 : World,
    sockets w1 !! c = sockets w2 !! c →
    received c (run_outputs sid outs w1) = received c (run_outputs sid outs w2).
Proof.
  induction outs as [|[h d] outs IH]; intros w1 w2 Heq.
  - unfold received. cbn. by rewrite Heq.
  - cbn [run_outputs foldl]. cbn [fst snd].
    apply (IH (PtyManager.onData sid h d w1) (PtyManager.onData sid h d w2)).
    by rewrite !sockets_onData, !lookup_to_emit, Heq.
Qed.

Lemma received_run_outputs_out (c : nat) (sid : jsstring)
    (outs : list (nat * jsstring)) :
  ∀ (w : World) (s : Socket),
    sockets w !! c = Some s → room sid ∉ rooms s →
    received c (run_outputs sid outs w) = received c w.
Proof.
  induction outs as [|[h d] outs IH]; intros w s Hs Hout; [done|].
  cbn [run_outputs foldl]. cbn [fst snd].
  destruct (rooms_to_emit c (room sid) (EvOutput d) w s Hs)
    as (s' & Hs' & Hrooms & _).
  rewrite <- sockets_onData with (h := h) in Hs'.
  fold (run_outputs sid outs (PtyManager.onData sid h d w)).
  rewrite (IH _ s' Hs') by by rewrite Hrooms.
  by apply received_onData_out with s.
Qed.

Lemma leave_socket (c : nat) (sid : jsstring) (w : World) (s : Socket) :
  sockets w !! c = Some s → attached_to sid s →
  sockets (session_leave c w) !! c = Some (detach sid s)
  ∧ ∀ c' : nat, c' ≠ c → sockets (session_leave c w) !! c' = sockets w !! c'.
Proof.
  intros Hs Ha. rewrite (leave_attached c sid w s Hs Ha). wsimpl. split.
  - by rewrite lookup_alter_eq, Hs.
  - intros c' Hne. by rewrite lookup_alter_ne.
Qed.

End Leave.

(** X1: a socket attached to a session that sends [session:leave] has
    its session and role cleared and is taken out of that session's
    room; it is sent nothing, no other socket changes, and neither the
    manager nor the log is touched.  An input that follows is answered
    'Not in a session'. *)
Theorem X1_leave_detaches (w : World) (c : nat) (s : Socket)
    (sid data : jsstring) :
  sockets w !! c = Some s →
  attached_to sid s →
  let w' := Gateway.session_leave c w in
  sockets w' !! c
  = Some (mkSocket (userId s) None None (rooms s ∖ {[room sid]}) (outbox s))
  ∧ (∀ c' : nat, c' ≠ c → sockets w' !! c' = sockets w !! c')
  ∧ sessions w' = sessions w
  ∧ calls w' = calls w
  ∧ received c (Gateway.session_input c data w')
    = received c w ++ [EvError (lit "Not in a session")].
Proof.
  intros Hs Ha w'. subst w'.
  destruct (leave_socket c sid w s Hs Ha) as [Hs' Hother].
  split; [exact Hs'|]. split; [exact Hother|].
  split; [by rewrite (leave_attached c sid w s Hs Ha)|].
  split; [by rewrite (leave_attached c sid w s Hs Ha)|].
  rewrite (input_unattached c data _ _ Hs') by done.
  rewrite (received_emit c _ _ _ Hs'). unfold received. by rewrite Hs', Hs.
Qed.

(** X2: [session:leave] from a socket that is in no session changes
    nothing, and leaving twice is the same as leaving once. *)
Theorem X2_leave_idempotent (w : World) (c : nat) :
  (∀ s : Socket, sockets w !! c = Some s → unattached s →
     Gateway.session_leave c w = w)
  ∧ Gateway.session_leave c (Gateway.session_leave c w)
    = Gateway.session_leave c w.
Proof.
  split; [intros s Hs Hu; by apply leave_unattached with s|].
  destruct (sockets w !! c) as [s|] eqn:Hs.
  - destruct (JS.truthy_opt (sessionId s)) as [sid|] eqn:Ha.
    + rewrite (leave_attached c sid w s Hs Ha).
      apply leave_unattached with (Gateway.detach sid s); [|done].
      wsimpl. by rewrite lookup_alter_eq, Hs.
    + by rewrite !(leave_unattached c w s Hs Ha).
  - assert (Gateway.session_leave c w = w) as Hw
      by (unfold Gateway.session_leave; by rewrite Hs).
    by rewrite !Hw.
Qed.

(** X3: once a socket has left a session, the outputs of that session
    are no longer sent to it, while every other socket is sent exactly
    what it would have been sent had the socket stayed. *)
Theorem X3_leave_stops_output (w : World) (c : nat) (s : Socket)
    (sid : jsstring) (outs : list (nat * jsstring)) :
  sockets w !! c = Some s →
  attached_to sid s →
  let w' := Gateway.session_leave c w in
  received c (run_outputs sid outs w') = received c w
  ∧ ∀ c' : nat, c' ≠ c →
      received c' (run_outputs sid outs w')
      = received c' (run_outputs sid outs w).
Proof.
  intros Hs Ha w'.
  destruct (leave_socket c sid w s Hs Ha) as [Hs' Hother]. fold w' in Hs', Hother.
  split.
  - rewrite (received_run_outputs_out c sid outs w' _ Hs').
    + unfold received. by rewrite Hs', Hs.
    + unfold Gateway.detach. cbn [rooms].
      intros [_ Hn]%elem_of_difference. apply Hn. by apply elem_of_singleton.
  - intros c' Hne. apply received_run_outputs_local. by apply Hother.
Qed.

Lemma run_outputs_absent (c : nat) (sid : jsstring)
    (outs : list (nat * jsstring)) :
  ∀ w : World, sockets w !! c = None →
    sockets (run_outputs sid outs w) !! c = None.
Proof.
  induction outs as [|[h d] outs IH]; intros w Hnone; [done|].
  cbn [run_outputs foldl]. cbn [fst snd].
  apply (IH (PtyManager.onData sid h d w)).
  by rewrite sockets_onData, lookup_to_emit, Hnone.
Qed.

(** X4: a socket that has disconnected is gone and is sent nothing more;
    the sessions of the manager and their processes are untouched, and
    every other socket is sent exactly the outputs it would have been
    sent otherwise. *)
Theorem X4_disconnect_stops_output (w : World) (c : nat) (sid : jsstring)
    (outs : list (nat * jsstring)) :
  let w' := disconnect c w in
  sockets (run_outputs sid outs w') !! c = None
  ∧ sessions w' = sessions w
  ∧ calls w' = calls w
  ∧ ∀ c' : nat, c' ≠ c →
      received c' (run_outputs sid outs w')
      = received c' (run_outputs sid outs w).
Proof.
  intros w'. split; [|split; [done|split; [done|]]].
  - apply run_outputs_absent. subst w'. unfold disconnect. wsimpl.
    apply lookup_delete_eq.
  - intros c' Hne. apply received_run_outputs_local.
    subst w'. unfold disconnect. wsimpl. by rewrite lookup_delete_ne.
Qed.

(** X5: the outputs of a session are sent, each once and in the order
    the pty produced them, to every socket in the session's room, and
    to no socket outside it. *)
Theorem X5_output_fan_out (w : World) (c : nat) (s : Socket) (sid : jsstring)
    (outs : list (nat * jsstring)) :
  sockets w !! c = Some s →
  received c (run_outputs sid outs w)
  = received c w
    ++ (if decide (room sid ∈ rooms s) then EvOutput <$> outs.*2 else []).
Proof.
  intros Hs. case_decide as Hin.
  - by apply received_run_outputs with s.
  - rewrite app_nil_r. by apply received_run_outputs_out with s.
Qed.

(** X6: a resize from a socket attached to a session is passed to the
    manager with the socket's session and the given size, and reaches
    the pty when the session is tracked; whether or not the call
    throws, no socket is sent anything and no session changes. *)
Theorem X6_resize_forwarded (w : World) (c : nat) (s : Socket)
    (sid : jsstring) (cols rows : Z) :
  sockets w !! c = Some s →
  attached_to sid s →
  let w' := Gateway.session_resize c cols rows w in
  sockets w' = sockets w
  ∧ sessions w' = sessions w
  ∧ calls w'
    = calls w ++ CallResize sid cols rows
        :: match sessions w !! sid with
           | Some session => [PtyResize (handle (pty session)) cols rows]
           | None => []
           end.
Proof.
  intros Hs Ha w'. subst w'. unfold Gateway.session_resize.
  rewrite Hs, Ha. unfold PtyManager.resize, PtyManager.pty_resize. wsimpl.
  destruct (sessions w !! sid) as [session|]; [|done].
  destruct (mock (pty session)); [|destruct (fault (pty session))]; wsimpl;
    by rewrite <- app_assoc.
Qed.

(** X7: where the pty of a session is a [MockPty], the input of an OWNER
    or OPERATOR comes back as output at once: it is appended to the
    replay buffer, and every socket in the session's room, the sender's
    included, is sent it as one output event, while the other sockets
    are sent nothing. *)
Theorem X7_mock_echo (w : World) (c : nat) (s : Socket) (sid data : jsstring)
    (session : PtySession) :
  sockets w !! c = Some s →
  attached_to sid s →
  sessionRole s = Some OWNER ∨ sessionRole s = Some OPERATOR →
  sessions w !! sid = Some session →
  mock (pty session) = true →
  let w' := Gateway.session_input c data w in
  PtyManager.getBuffer sid w'
  = PtyManager.appendOutput (outputBuffer session) data
  ∧ ∀ (c' : nat) (s' : Socket), sockets w !! c' = Some s' →
      received c' w'
      = received c' w
        ++ (if decide (room sid ∈ rooms s') then [EvOutput data] else []).
Proof.
  intros Hs Ha Hr Hsess Hmock w'.
  assert (sessionRole s ≠ Some VIEWER) as Hnv by (destruct Hr; congruence).
  assert (w' = PtyManager.onData sid (handle (pty session)) data
                 (record (PtyWrite (handle (pty session)) data)
                    (record (CallWrite sid data) w))) as ->.
  { subst w'. rewrite (input_forward c sid data w s Hs Ha Hnv).
    unfold PtyManager.write, PtyManager.pty_write. wsimpl.
    by rewrite Hsess, Hmock. }
  split.
  - rewrite getBuffer_onData by done.
    unfold PtyManager.getBuffer. wsimpl. by rewrite Hsess.
  - intros c' s' Hs'. case_decide as Hin.
    + exact (received_onData_in c' sid (handle (pty session)) data
               (record (PtyWrite (handle (pty session)) data)
                  (record (CallWrite sid data) w)) s' Hs' Hin).
    + rewrite app_nil_r.
      exact (received_onData_out c' sid (handle (pty session)) data
               (record (PtyWrite (handle (pty session)) data)
                  (record (CallWrite sid data) w)) s' Hs' Hin).
Qed.

(** X8: the exit of a session's process detaches nobody: a socket
    attached to the session still records it, with its role and rooms.
    The input of an OWNER or OPERATOR that follows is passed to the
    manager, reaches no pty, and is answered 'Failed to send input'. *)
Theorem X8_exit_keeps_attached (w : World) (c : nat) (s : Socket)
    (sid data : jsstring) (code : Z) :
  sockets w !! c = Some s →
  attached_to sid s →
  sessionRole s = Some OWNER ∨ sessionRole s = Some OPERATOR →
  let w' := PtyManager.onExit sid code w in
  let w'' := Gateway.session_input c data w' in
  (∃ s', sockets w' !! c = Some s'
         ∧ attached_to sid s'
         ∧ sessionRole s' = sessionRole s
         ∧ rooms s' = rooms s)
  ∧ received c w'' = received c w' ++ [EvError (lit "Failed to send input")]
  ∧ writes_of (calls w'') = writes_of (calls w') ++ [(sid, data)]
  ∧ pty_writes_of (calls w'') = pty_writes_of (calls w').
Proof.
  intros Hs Ha Hr w' w''.
  destruct (rooms_to_emit c (room sid) (EvExit code) w s Hs)
    as (s' & Hs' & Hrooms & Hsid & Hrole & _).
  change (sockets (Io.to_emit (room sid) (EvExit code) w))
    with (sockets w') in Hs'.
  assert (attached_to sid s') as Ha' by (unfold attached_to; by rewrite Hsid).
  assert (sessionRole s' ≠ Some VIEWER) as Hnv
    by (rewrite Hrole; destruct Hr; congruence).
  assert (sessions w' !! sid = None) as Hgone.
  { subst w'. unfold PtyManager.onExit. wsimpl. apply lookup_delete_eq. }
  destruct (proj2 (write_throws_iff sid data w') (or_introl Hgone))
    as (e & w1 & Hw).
  destruct (input_write_failed c sid data e w' w1 s' Hs' Ha' Hnv Hw)
    as (Hrec & _ & _).
  destruct (write_calls sid data w') as [Hwr Hpw]. rewrite Hgone in Hpw.
  split; [by exists s'|]. split; [done|].
  subst w''. rewrite (input_forward_calls c sid data w' s' Hs' Ha' Hnv).
  split; [done|]. by rewrite Hpw, app_nil_r.
Qed.

(** ** Killing and spawning *)

Section Kill.

Import Manager.

Lemma kill_untracked (sid : jsstring) (w : World) :
  sessions w !! sid = None → kill sid w = Return w.
Proof. intros Hs. unfold kill. by rewrite Hs. Qed.

Lemma kill_mock (sid : jsstring) (w : World) (session : PtySession) :
  sessions w !! sid = Some session → mock (pty session) = true →
  kill sid w = Return (PtyManager.onExit sid 0 w).
Proof.
  intros Hs Hm. unfold kill, pty_kill. rewrite Hs, Hm. f_equal.
  unfold PtyManager.onExit, set_sessions. wsimpl. f_equal.
  apply delete_delete_eq.
Qed.

Lemma kill_node (sid : jsstring) (w : World) (session : PtySession) :
  sessions w !! sid = Some session → mock (pty session) = false →
  fault (pty session) = None →
  kill sid w = Return (set_sessions (delete sid) w).
Proof. intros Hs Hm Hf. unfold kill, pty_kill. by rewrite Hs, Hm, Hf. Qed.

End Kill.

(** X9: [kill] of a session that is not tracked does nothing.  [kill] of
    a tracked session whose pty takes the call removes the session's
    record and no other, so that the session no longer exists and a
    second [kill] does nothing; with a node-pty process no socket is
    told and nothing is logged. *)
Theorem X9_kill_removes_record (w : World) (sid : jsstring) :
  (sessions w !! sid = None → Manager.kill sid w = Return w)
  ∧ ∀ session : PtySession,
      sessions w !! sid = Some session →
      mock (pty session) = true ∨ fault (pty session) = None →
      ∃ w', Manager.kill sid w = Return w'
            ∧ sessions w' = delete sid (sessions w)
            ∧ PtyManager.exists_ sid w' = false
            ∧ Manager.kill sid w' = Return w'
            ∧ (mock (pty session) = false →
                 sockets w' = sockets w ∧ calls w' = calls w).
Proof.
  split; [apply kill_untracked|].
  intros session Hs Hok.
  assert (∀ w', sessions w' = delete sid (sessions w) →
            PtyManager.exists_ sid w' = false
            ∧ Manager.kill sid w' = Return w') as Hafter.
  { intros w' Hdel.
    assert (sessions w' !! sid = None) as Hnone
      by (rewrite Hdel; apply lookup_delete_eq).
    split; [|by apply kill_untracked].
    unfold PtyManager.exists_. rewrite Hnone.
    apply bool_decide_false. by intros [? ?]. }
  destruct (mock (pty session)) eqn:Hm.
  - exists (PtyManager.onExit sid 0 w).
    split; [by apply kill_mock with session|].
    split; [done|]. destruct (Hafter (PtyManager.onExit sid 0 w) eq_refl).
    done.
  - destruct Hok as [?|Hf]; [done|].
    exists (set_sessions (delete sid) w).
    split; [by apply kill_node with session|].
    split; [done|]. destruct (Hafter (set_sessions (delete sid) w) eq_refl).
    done.
Qed.

(** X10: [kill] of a session whose pty is a [MockPty] runs the exit
    handler at once with exit code 0: every socket in the session's room
    is sent one exit event with code 0, no other socket is sent
    anything, and the store is asked once to mark the session
    terminated. *)
Theorem X10_kill_mock_exits (w : World) (sid : jsstring)
    (session : PtySession) :
  sessions w !! sid = Some session →
  mock (pty session) = true →
  let w' := world_of (Manager.kill sid w) in
  (∀ (c : nat) (s : Socket), sockets w !! c = Some s →
     received c w'
     = received c w ++ (if decide (room sid ∈ rooms s) then [EvExit 0] else []))
  ∧ calls w' = calls w ++ [DbUpdateStatusTerminated sid]
  ∧ sessions w' !! sid = None.
Proof.
  intros Hs Hm w'. subst w'. rewrite (kill_mock sid w session Hs Hm).
  cbn [world_of]. split; [|split].
  - intros c s Hc. case_decide as Hin.
    + by apply (received_to_emit_in c (room sid) (EvExit 0) w s).
    + rewrite app_nil_r.
      by apply (received_to_emit_out c (room sid) (EvExit 0) w s).
  - done.
  - unfold PtyManager.onExit. wsimpl. apply lookup_delete_eq.
Qed.

(** X11: [spawn] for a session that is not tracked either throws what
    node-pty's [spawn] throws and registers nothing, or registers a
    record under the session's identifier with an empty buffer and a
    new pty, which is a [MockPty] exactly when node-pty is not
    available; the other records and the sockets are as before, and a
    second [spawn] for the session throws 'Session already exists'. *)
Theorem X11_spawn_registers (w : World) (sid : jsstring) :
  sessions w !! sid = None →
  match backend w with
  | NodePty (Some e) =>
      ∃ w', PtyManager.spawn sid w = Throw e w'
            ∧ sessions w' = sessions w ∧ sockets w' = sockets w
            ∧ pty_spawns_of (calls w') = pty_spawns_of (calls w)
  | _ =>
      ∃ w', PtyManager.spawn sid w = Return w'
            ∧ sessions w'
              = <[sid := mkPtySession sid
                           (mkPty (nextHandle w)
                              (negb (Manager.isPtyAvailable w)) None) []]>
                  (sessions w)
            ∧ PtyManager.exists_ sid w' = true
            ∧ PtyManager.getBuffer sid w' = []
            ∧ sockets w' = sockets w
            ∧ pty_spawns_of (calls w')
              = pty_spawns_of (calls w)
                ++ [(nextHandle w, negb (Manager.isPtyAvailable w))]
            ∧ ∃ w'', PtyManager.spawn sid w'
                     = Throw (lit "Session already exists") w''
  end.
Proof.
  intros Hnone. rewrite (spawn_untracked sid w Hnone).
  unfold Manager.isPtyAvailable.
  assert (∀ cs x, pty_spawns_of (cs ++ [CallSpawn sid; x])
                  = pty_spawns_of cs ++ pty_spawns_of [x]) as Hlog.
  { intros cs x. unfold pty_spawns_of. by rewrite omap_app. }
  destruct (backend w) as [[e|]|] eqn:Hb.
  - eexists. split; [done|]. wsimpl. split; [done|]. split; [done|].
    unfold pty_spawns_of. rewrite omap_app. cbn. by rewrite app_nil_r.
  - eexists. split; [done|]. unfold PtyManager.create. wsimpl.
    split; [done|].
    split; [unfold PtyManager.exists_; wsimpl; rewrite lookup_insert_eq;
            apply bool_decide_true; eauto|].
    split; [unfold PtyManager.getBuffer; wsimpl; by rewrite lookup_insert_eq|].
    split; [done|]. rewrite <- app_assoc. split; [apply Hlog|].
    eexists. apply spawn_tracked. wsimpl. rewrite lookup_insert_eq. eauto.
  - eexists. split; [done|]. unfold PtyManager.create. wsimpl.
    split; [done|].
    split; [unfold PtyManager.exists_; wsimpl; rewrite lookup_insert_eq;
            apply bool_decide_true; eauto|].
    split; [unfold PtyManager.getBuffer; wsimpl; by rewrite lookup_insert_eq|].
    split; [done|]. rewrite <- app_assoc. split; [apply Hlog|].
    eexists. apply spawn_tracked. wsimpl. rewrite lookup_insert_eq. eauto.
Qed.

(** ** Joins and spawns *)

Section Joins.

(** A join leaves the sessions and the spawns as they are, or it turns
    an untracked session into a tracked one with one spawn. *)
Lemma join_spawn_cases (c : nat) (sid : jsstring) (w : World) :
  let w' := Gateway.session_join c sid w in
  (sessions w' = sessions w
   ∧ pty_spawns_of (calls w') = pty_spawns_of (calls w))
  ∨ (sessions w !! sid = None
     ∧ is_Some (sessions w' !! sid)
     ∧ ∃ x, pty_spawns_of (calls w') = pty_spawns_of (calls w) ++ [x]).
Proof.
  intros w'.
  destruct (sockets w !! c) as [s|] eqn:Hs;
    [|left; subst w'; unfold Gateway.session_join; by rewrite Hs].
  destruct (SessionService.getUserRole sid (userId s) (db w)) as [role|] eqn:Hr;
    [|left; subst w'; by rewrite (join_denied c sid w s Hs Hr)].
  pose proof (join_granted_manager c sid w s role Hs Hr) as Hm.
  cbn zeta in Hm. fold w' in Hm.
  destruct (sessions w !! sid) as [session|] eqn:Hsess.
  { left. destruct Hm as [-> ->]. done. }
  destruct (backend w) as [[e|]|]; destruct Hm as [Hc Hse].
  - left. split; [done|]. rewrite Hc. unfold pty_spawns_of.
    rewrite omap_app. cbn. by rewrite app_nil_r.
  - right. split; [done|]. split; [rewrite Hse, lookup_insert_eq; eauto|].
    eexists. rewrite Hc. unfold pty_spawns_of. by rewrite omap_app.
  - right. split; [done|]. split; [rewrite Hse, lookup_insert_eq; eauto|].
    eexists. rewrite Hc. unfold pty_spawns_of. by rewrite omap_app.
Qed.

End Joins.

(** X12: however many sockets join one session, and whether or not they
    are granted access, at most one pty is spawned; where the session is
    already tracked none is, and the session's record stays the one it
    was. *)
Theorem X12_joins_spawn_at_most_once (sid : jsstring) (cs : list nat)
    (w : World) :
  ∃ spawned : list (nat * bool),
    pty_spawns_of (calls (run_joins sid cs w))
    = pty_spawns_of (calls w) ++ spawned
    ∧ length spawned ≤ 1
    ∧ (is_Some (sessions w !! sid) →
         spawned = []
         ∧ sessions (run_joins sid cs w) !! sid = sessions w !! sid).
Proof.
  revert w. induction cs as [|c cs IH]; intros w.
  { exists []. rewrite app_nil_r. cbn. split; [done|]. split; [lia|done]. }
  cbn [run_joins foldl]. fold (run_joins sid cs (Gateway.session_join c sid w)).
  destruct (IH (Gateway.session_join c sid w)) as (l & Hl & Hlen & Htracked).
  destruct (join_spawn_cases c sid w) as [[Hse Hsp]|(Hnone & Hsome & x & Hsp)].
  - exists l. rewrite Hl, Hsp. split; [done|]. split; [done|].
    intros Hin. rewrite Hse in Htracked. by apply Htracked.
  - destruct (Htracked Hsome) as [-> _].
    exists [x]. rewrite Hl, Hsp, app_nil_r. split; [done|]. split; [cbn; lia|].
    intros [? Hin]. congruence.
Qed.

(** ** What every run of the server keeps *)

Section WellFormed.

Lemma same_cores_refl (w : World) : same_cores w w.
Proof. by intros c. Qed.

Lemma same_cores_trans (w1 w2 w3 : World) :
  same_cores w1 w2 → same_cores w2 w3 → same_cores w1 w3.
Proof. intros H12 H23 c. by rewrite H23, H12. Qed.

Lemma same_cores_emit (c : nat) (ev : ServerEvent) (w : World) :
  same_cores w (Io.emit c ev w).
Proof.
  intros c'. unfold Io.emit. wsimpl.
  destruct (decide (c = c')) as [->|Hne].
  - rewrite lookup_alter_eq. by destruct (sockets w !! c').
  - by rewrite lookup_alter_ne.
Qed.

Lemma same_cores_to_emit (rm : jsstring) (ev : ServerEvent) (w : World) :
  same_cores w (Io.to_emit rm ev w).
Proof.
  intros c. rewrite lookup_to_emit.
  destruct (sockets w !! c) as [s|]; [|done].
  cbn [fmap option_fmap option_map]. by case_decide.
Qed.

Lemma same_cores_sockets (w w' : World) :
  sockets w' = sockets w → same_cores w w'.
Proof. intros Heq c. by rewrite Heq. Qed.

Lemma same_cores_onData (sid : jsstring) (h : nat) (data : jsstring)
    (w : World) :
  same_cores w (PtyManager.onData sid h data w).
Proof.
  eapply same_cores_trans; [apply (same_cores_to_emit (room sid))|].
  apply same_cores_sockets, sockets_onData.
Qed.

Lemma same_cores_onExit (sid : jsstring) (code : Z) (w : World) :
  same_cores w (PtyManager.onExit sid code w).
Proof. apply (same_cores_to_emit (room sid) (EvExit code) w). Qed.

Lemma same_cores_write (sid data : jsstring) (w : World) :
  same_cores w (world_of (PtyManager.write sid data w)).
Proof.
  unfold PtyManager.write, PtyManager.pty_write. wsimpl.
  destruct (sessions w !! sid) as [session|]; [|by apply same_cores_sockets].
  destruct (mock (pty session)).
  - apply (same_cores_onData sid (handle (pty session)) data
             (record _ (record _ w))).
  - by destruct (fault (pty session)); apply same_cores_sockets.
Qed.

Lemma same_cores_input (c : nat) (data : jsstring) (w : World) :
  same_cores w (Gateway.session_input c data w).
Proof.
  unfold Gateway.session_input.
  destruct (sockets w !! c) as [s|]; [|apply same_cores_refl].
  destruct (JS.truthy_opt (sessionId s)) as [sid|]; [|apply same_cores_emit].
  case_decide; [apply same_cores_emit|].
  pose proof (same_cores_write sid data w) as Hw.
  destruct (PtyManager.write sid data w) as [w1|e w1]; [done|].
  eapply same_cores_trans; [exact Hw|apply same_cores_emit].
Qed.

Lemma sockets_resize (c : nat) (cols rows : Z) (w : World) :
  sockets (Gateway.session_resize c cols rows w) = sockets w
  ∧ sessions (Gateway.session_resize c cols rows w) = sessions w.
Proof.
  unfold Gateway.session_resize.
  destruct (sockets w !! c) as [s|]; [|done].
  destruct (JS.truthy_opt (sessionId s)) as [sid|]; [|done].
  unfold PtyManager.resize, PtyManager.pty_resize. wsimpl.
  destruct (sessions w !! sid) as [session|]; [|done].
  destruct (mock (pty session)); [done|]. by destruct (fault (pty session)).
Qed.

(** A property of sockets that does not look at the outbox and holds of
    a socket that has just attached or detached is kept by every
    event. *)
Lemma sockets_step (P : Socket → Prop) (w : World) (e : Event) :
  (∀ s s' : Socket, core s = core s' → P s → P s') →
  (∀ (sid : jsstring) (role : SessionRole) (s : Socket),
     P (Gateway.attach sid role s)) →
  (∀ (sid : jsstring) (s : Socket), P (Gateway.detach sid s)) →
  (∀ (c : nat) (s : Socket), sockets w !! c = Some s → P s) →
  ∀ (c : nat) (s : Socket), sockets (step w e) !! c = Some s → P s.
Proof.
  intros Hcore Hattach Hdetach Hw.
  assert (∀ w', same_cores w w' →
            ∀ (c : nat) (s : Socket), sockets w' !! c = Some s → P s) as Hsame.
  { intros w' Hsc c s' Hs'. specialize (Hsc c). rewrite Hs' in Hsc.
    destruct (sockets w !! c) as [s|] eqn:Hs; [|done].
    injection Hsc as Hc. apply (Hcore s s'); [|by apply (Hw c)].
    unfold core. congruence. }
  destruct e as [c sid|c data|c cols rows|c|sid h data|sid code]; cbn [step].
  - intros c' s' Hs'. destruct (decide (c = c')) as [<-|Hne].
    + destruct (sockets w !! c) as [s|] eqn:Hs.
      * destruct (SessionService.getUserRole sid (userId s) (db w))
          as [role|] eqn:Hr.
        -- rewrite (join_granted_socket c sid w s role Hs Hr) in Hs'.
           injection Hs' as <-.
           by apply (Hcore (Gateway.attach sid role s)).
        -- rewrite (join_denied c sid w s Hs Hr), lookup_emit, Hs in Hs'.
           injection Hs' as <-. apply (Hcore s); [done|by apply (Hw c)].
      * unfold Gateway.session_join in Hs'. rewrite Hs in Hs'. congruence.
    + rewrite join_other_socket in Hs' by done. by apply (Hw c').
  - apply Hsame, same_cores_input.
  - apply Hsame, same_cores_sockets, sockets_resize.
  - intros c' s' Hs'. unfold Gateway.session_leave in Hs'.
    destruct (sockets w !! c) as [s|] eqn:Hs; [|by apply (Hw c')].
    destruct (JS.truthy_opt (sessionId s)) as [sid|]; [|by apply (Hw c')].
    wsimpl. destruct (decide (c = c')) as [<-|Hne].
    * rewrite lookup_alter_eq, Hs in Hs'. injection Hs' as <-. apply Hdetach.
    * rewrite lookup_alter_ne in Hs' by done. by apply (Hw c').
  - apply Hsame, same_cores_onData.
  - apply Hsame, same_cores_onExit.
Qed.

Lemma sessions_ok_onData (sid : jsstring) (h : nat) (data : jsstring)
    (w : World) :
  map_Forall session_ok (sessions w) →
  map_Forall session_ok (sessions (PtyManager.onData sid h data w)).
Proof.
  intros Hok. unfold PtyManager.onData.
  destruct (sessions w !! sid) as [session|] eqn:Hs; [|done].
  case_decide; [|done]. wsimpl. apply map_Forall_insert_2; [|done].
  split; [apply (Hok sid session Hs)|].
  unfold PtyManager.with_buffer. cbn [outputBuffer].
  rewrite appendOutput_length. lia.
Qed.

Lemma sessions_ok_write (sid data : jsstring) (w : World) :
  map_Forall session_ok (sessions w) →
  map_Forall session_ok (sessions (world_of (PtyManager.write sid data w))).
Proof.
  intros Hok. unfold PtyManager.write, PtyManager.pty_write. wsimpl.
  destruct (sessions w !! sid) as [session|]; [|done].
  destruct (mock (pty session)).
  - by apply (sessions_ok_onData sid (handle (pty session)) data
                (record _ (record _ w))).
  - by destruct (fault (pty session)).
Qed.

Lemma sessions_ok_step (w : World) (e : Event) :
  map_Forall session_ok (sessions w) →
  map_Forall session_ok (sessions (step w e)).
Proof.
  intros Hok.
  destruct e as [c sid|c data|c cols rows|c|sid h data|sid code]; cbn [step].
  - destruct (sockets w !! c) as [s|] eqn:Hs;
      [|unfold Gateway.session_join; by rewrite Hs].
    destruct (SessionService.getUserRole sid (userId s) (db w))
      as [role|] eqn:Hr; [|by rewrite (join_denied c sid w s Hs Hr)].
    pose proof (join_granted_manager c sid w s role Hs Hr) as Hm.
    cbn zeta in Hm.
    destruct (sessions w !! sid) as [session|]; [by destruct Hm as [_ ->]|].
    destruct (backend w) as [[e|]|]; destruct Hm as [_ ->]; [done| |];
      (apply map_Forall_insert_2; [|done]; split; [done|cbn; lia]).
  - unfold Gateway.session_input.
    destruct (sockets w !! c) as [s|]; [|done].
    destruct (JS.truthy_opt (sessionId s)) as [sid|]; [|done].
    case_decide; [done|].
    pose proof (sessions_ok_write sid data w Hok) as Hw.
    by destruct (PtyManager.write sid data w).
  - by rewrite (proj2 (sockets_resize c cols rows w)).
  - unfold Gateway.session_leave.
    destruct (sockets w !! c) as [s|]; [|done].
    by destruct (JS.truthy_opt (sessionId s)).
  - by apply sessions_ok_onData.
  - unfold PtyManager.onExit. wsimpl. by apply map_Forall_delete.
Qed.

Lemma well_formed_act (verify : jsstring → Verified) (w : World) (a : Action) :
  well_formed w → well_formed (act verify w a).
Proof.
  intros [Hrooms Hrole Hsess]. destruct a as [e|c token|c]; cbn [act].
  - split.
    + by apply in_own_room_step.
    + apply (sockets_step role_ok w e); try done.
      intros s s' Hc. unfold role_ok, core in *. by injection Hc as _ -> -> _.
    + by apply sessions_ok_step.
  - unfold connect.
    destruct (sockets w !! c) as [s|] eqn:Hs; [done|].
    destruct (Auth.socket_auth verify token (db w)) as [e|uid]; [done|].
    split.
    + intros c' s' sid' Hs' Hsid. wsimpl.
      apply lookup_insert_Some in Hs' as [[<- <-]|[_ Hs']]; [done|].
      by apply (Hrooms c' s' sid').
    + intros c' s' Hs'. wsimpl.
      apply lookup_insert_Some in Hs' as [[<- <-]|[_ Hs']]; [done|].
      by apply (Hrole c').
    + done.
  - unfold disconnect. split.
    + intros c' s' sid' Hs' Hsid. wsimpl.
      apply lookup_delete_Some in Hs' as [_ Hs']. by apply (Hrooms c' s').
    + intros c' s' Hs'. wsimpl.
      apply lookup_delete_Some in Hs' as [_ Hs']. by apply (Hrole c').
    + done.
Qed.

End WellFormed.

(** X13: in every run of the server, from its start through any
    connections, disconnections, client events and pty events, each
    socket is in the room of the session it records and records a role
    exactly when it records a session, and each record of the manager
    is stored under its own identifier with at most 10000 units of
    buffered output. *)
Theorem X13_well_formed_run (verify : jsstring → Verified) (d : Database)
    (b : Backend) (acts : list Action) :
  well_formed (run_actions verify acts (boot d b)).
Proof.
  assert (well_formed (boot d b)) as Hboot.
  { split; unfold boot; wsimpl; [intros c s sid Hs|intros c s Hs|];
      by rewrite ?lookup_empty in *. }
  revert Hboot. generalize (boot d b).
  induction acts as [|a acts IH]; intros w Hw; [done|].
  apply (IH (act verify w a)). by apply well_formed_act.
Qed.

(** X14: in a state of the kind every run keeps, each output makes one
    call to the store, and what it sends is the session's replay buffer
    as it stands after the append, whole: at most 10000 units, so that
    the service's own cut to the last 10000 removes nothing. *)
Theorem X14_mirror_is_buffer (w : World) (sid : jsstring) (h : nat)
    (data : jsstring) :
  well_formed w →
  let w' := PtyManager.onData sid h data w in
  calls w' = calls w ++ [DbUpdateOutputBuffer sid (PtyManager.getBuffer sid w')]
  ∧ length (PtyManager.getBuffer sid w') ≤ 10000.
Proof.
  intros [_ _ Hsess] w'.
  assert (length (PtyManager.getBuffer sid w') ≤ PtyManager.MAX_BUFFER_SIZE)
    as Hlen.
  { pose proof (sessions_ok_onData sid h data w Hsess) as Hok. fold w' in Hok.
    unfold PtyManager.getBuffer.
    destruct (sessions w' !! sid) as [session|] eqn:Hs; [|cbn; lia].
    apply (Hok sid session Hs). }
  split; [|exact Hlen].
  assert (calls w'
          = calls w ++ [DbUpdateOutputBuffer sid
                          (JS.slice_last 10000 (PtyManager.getBuffer sid w'))])
    as ->.
  { subst w'. unfold PtyManager.onData.
    destruct (sessions w !! sid) as [session|]; [case_decide|]; done. }
  by rewrite (slice_last_short 10000) by exact Hlen.
Qed.

(** ** Authentication *)

Section Authentication.

Lemma startsWith_Bearer_inv (authHeader : option jsstring) :
  Auth.startsWith_Bearer authHeader = true
  ↔ ∃ token, authHeader = Some (Auth.bearer token).
Proof.
  unfold Auth.startsWith_Bearer, Auth.bearer. split.
  - destruct authHeader as [h|]; [|done]. intros Hp%bool_decide_eq_true.
    exists (drop 7 h). by rewrite <- Hp, take_drop.
  - intros [token ->]. apply bool_decide_eq_true. by rewrite take_app_length'.
Qed.

Lemma drop_bearer (token : jsstring) : drop 7 (Auth.bearer token) = token.
Proof. unfold Auth.bearer. by rewrite drop_app_length'. Qed.

End Authentication.

(** X15: a handshake on a free identifier yields a socket only when it
    carries a token that is not empty, that [jwt.verify] accepts, and
    whose user has an account; the socket is then that user's, in no
    session and in no room, with nothing sent to it.  Everything else
    in the server is as it was. *)
Theorem X15_connect_authenticated (verify : jsstring → Verified) (c : nat)
    (token : option jsstring) (w : World) :
  sockets w !! c = None →
  let w' := connect verify c token w in
  match sockets w' !! c with
  | Some s =>
      (∃ t, token = Some t ∧ t ≠ [] ∧ verify t = Valid (userId s))
      ∧ is_Some (users (db w) !! userId s)
      ∧ s = mkSocket (userId s) None None ∅ []
  | None =>
      w' = w
      ∧ ∀ t uid, token = Some t → t ≠ [] → verify t = Valid uid →
          users (db w) !! uid = None
  end
  ∧ sessions w' = sessions w
  ∧ calls w' = calls w
  ∧ ∀ c' : nat, c' ≠ c → sockets w' !! c' = sockets w !! c'.
Proof.
  intros Hfree w'. subst w'. unfold connect, Auth.socket_auth. rewrite Hfree.
  destruct token as [[|u t]|]; cbn [JS.truthy_opt JS.truthy].
  - rewrite Hfree. repeat split; try done. by intros t uid [= <-].
  - destruct (verify (u :: t)) as [uid| |] eqn:Hv.
    + destruct (users (db w) !! uid) as [role|] eqn:Hu.
      * wsimpl. rewrite lookup_insert_eq. cbn [userId].
        split; [|split; [done|split; [done|]]].
        -- split; [by exists (u :: t)|]. rewrite Hu. eauto.
        -- intros c' Hne. by rewrite lookup_insert_ne.
      * rewrite Hfree. repeat split; try done.
        intros t' uid' [= <-] _ Hv'. congruence.
    + rewrite Hfree. repeat split; try done.
      intros t' uid' [= <-] _ Hv'. congruence.
    + rewrite Hfree. repeat split; try done.
      intros t' uid' [= <-] _ Hv'. congruence.
  - rewrite Hfree. repeat split; try done.
Qed.

(** X16: the HTTP middleware lets a request through exactly when its
    authorization header is 'Bearer ' followed by a token that
    [jwt.verify] accepts and whose user has an account; [req.user] is
    then that user with the role of the account. *)
Theorem X16_http_auth (verify : jsstring → Verified)
    (authHeader : option jsstring) (d : Database) (u : ReqUser) :
  Auth.authMiddleware verify authHeader d = inr u
  ↔ ∃ token, authHeader = Some (Auth.bearer token)
             ∧ verify token = Valid (user_id u)
             ∧ users d !! user_id u = Some (user_role u).
Proof.
  unfold Auth.authMiddleware. split.
  - destruct (Auth.startsWith_Bearer authHeader) eqn:Hb; [|done].
    apply startsWith_Bearer_inv in Hb as [token ->].
    change (default [] (Some (Auth.bearer token))) with (Auth.bearer token).
    rewrite drop_bearer. intros Hv. exists token. split; [done|].
    destruct (verify token) as [uid| |]; [|done|done].
    destruct (users d !! uid) as [role|] eqn:Hu; [|done].
    by injection Hv as <-.
  - intros (token & -> & Hv & Hu).
    rewrite (proj2 (startsWith_Bearer_inv _)) by eauto.
    change (default [] (Some (Auth.bearer token))) with (Auth.bearer token).
    rewrite drop_bearer, Hv, Hu. by destruct u.
Qed.

(** X17: the two middlewares agree: for a token that is not empty, the
    HTTP middleware accepts the header the client builds from it
    exactly when the socket middleware accepts the token itself, and
    for the same user. *)
Theorem X17_auth_agree (verify : jsstring → Verified) (token uid : jsstring)
    (role : User.Role) (d : Database) :
  token ≠ [] →
  Auth.authMiddleware verify (Some (Auth.bearer token)) d
  = inr (mkReqUser uid role)
  ↔ Auth.socket_auth verify (Some token) d = inr uid
    ∧ users d !! uid = Some role.
Proof.
  intros Hne. unfold Auth.authMiddleware, Auth.socket_auth.
  rewrite (proj2 (startsWith_Bearer_inv _)) by eauto.
  change (default [] (Some (Auth.bearer token))) with (Auth.bearer token).
  rewrite drop_bearer.
  destruct token as [|u t]; [done|]. cbn [JS.truthy_opt JS.truthy].
  destruct (verify (u :: t)) as [uid'| |]; [|split; [done|by intros [? _]]..].
  destruct (users d !! uid') as [role'|] eqn:Hu.
  - split.
    + intros [= -> ->]. by split.
    + intros [[= ->] Hr]. rewrite Hu in Hr. by injection Hr as ->.
  - split; [done|by intros [? _]].
Qed.

(** * Properties of the session service and its routes *)

Ltac stsimpl :=
  unfold Service.getUserRole, SessionService.getUserRole, Service.findById in *;
  cbn [Service.base Service.sessionTable Service.inviteTable
       Service.set_members Service.set_invites Service.set_sessionTable
       Service.store_of Service.getUserRole Service.findById
       SessionService.getUserRole users sessionMembers
       Service.invite_sessionId Service.invite_role Service.invite_expiresAt
       Service.invite_usedAt fst snd] in *.

Section Invites.

Import Service.

(** The invite as [redeemInvite] leaves it. *)
Lemma redeem_reaches_update (token uid : jsstring) (now stamp : Z) (st : Store)
    (invite : InviteToken) :
  inviteTable st !! token = Some invite →
  invite_usedAt invite = None →
  (now ≤ invite_expiresAt invite)%Z →
  let used := mkInvite (invite_sessionId invite) (invite_role invite)
                (invite_expiresAt invite) (Some stamp) in
  let st1 := set_invites (insert token used) st in
  redeemInvite token uid now stamp st
  = match sessionMembers (base st) !! (uid, invite_sessionId invite) with
    | Some _ => Fail UniqueConstraint st1
    | None =>
        Ok (invite_sessionId invite, invite_role invite)
           (set_members (insert (uid, invite_sessionId invite)
                           (invite_role invite)) st1)
    end.
Proof.
  intros Hi Hu Hexp used st1. unfold redeemInvite. rewrite Hi, Hu.
  destruct (Z.ltb_spec (invite_expiresAt invite) now) as [Hlt|_]; [lia|].
  done.
Qed.


End Invites.

(** X18: a [redeemInvite] that throws one of its own errors has written
    nothing, and the error tells why: 'Invalid invite token' when no
    invite has the token, 'Invite already used' when the invite has been
    used, whether or not it has expired, and 'Invite expired' when it
    is unused and its expiry lies before now. *)
Theorem X18_redeem_rejects (token uid m : jsstring) (now stamp : Z)
    (st st' : Service.Store) :
  Service.redeemInvite token uid now stamp st = Service.Fail (Service.Message m) st' →
  st' = st
  ∧ match Service.inviteTable st !! token with
    | None => m = lit "Invalid invite token"
    | Some invite =>
        match Service.invite_usedAt invite with
        | Some _ => m = lit "Invite already used"
        | None =>
            m = lit "Invite expired"
            ∧ (Service.invite_expiresAt invite < now)%Z
        end
    end.
Proof.
  unfold Service.redeemInvite.
  destruct (Service.inviteTable st !! token) as [invite|]; [|by intros [= <- <-]].
  destruct (Service.invite_usedAt invite) as [at_|]; [by intros [= <- <-]|].
  destruct (Z.ltb_spec (Service.invite_expiresAt invite) now) as [Hlt|Hge].
  - by intros [= <- <-].
  - stsimpl. by destruct (sessionMembers (Service.base st) !! _).
Qed.

(** X19: an unused invite that has not expired, redeemed by a user with
    an account who is not yet a member of its session, makes the user a
    member with the invite's role: [getUserRole] then returns that role.
    The invite is marked used, and no other membership, session or
    account changes. *)
Theorem X19_redeem_grants (token uid : jsstring) (now stamp : Z)
    (st : Service.Store) (invite : Service.InviteToken) :
  Service.inviteTable st !! token = Some invite →
  Service.invite_usedAt invite = None →
  (now ≤ Service.invite_expiresAt invite)%Z →
  is_Some (users (Service.base st) !! uid) →
  is_Some (Service.findById (Service.invite_sessionId invite) st) →
  Service.getUserRole (Service.invite_sessionId invite) uid st = None →
  ∃ st',
    Service.redeemInvite token uid now stamp st
    = Service.Ok (Service.invite_sessionId invite, Service.invite_role invite) st'
    ∧ Service.getUserRole (Service.invite_sessionId invite) uid st'
      = Some (Service.invite_role invite)
    ∧ (∀ u sid, (u, sid) ≠ (uid, Service.invite_sessionId invite) →
         Service.getUserRole sid u st' = Service.getUserRole sid u st)
    ∧ (∃ used, Service.inviteTable st' !! token = Some used
               ∧ Service.invite_usedAt used = Some stamp)
    ∧ Service.sessionTable st' = Service.sessionTable st
    ∧ users (Service.base st') = users (Service.base st).
Proof.
  intros Hi Hu Hexp _ _ Hrole.
  rewrite (redeem_reaches_update token uid now stamp st invite Hi Hu Hexp).
  stsimpl. rewrite Hrole. eexists. split; [done|]. stsimpl.
  split; [by rewrite lookup_insert_eq|]. split.
  { intros u sid Hne. by rewrite lookup_insert_ne. }
  split; [|done]. eexists. by rewrite lookup_insert_eq.
Qed.


(** X21: an invite redeemed by a user who is already a member of its
    session does not change the user's role: the call throws Prisma's
    error for the duplicate membership, every membership is as it was,
    and the invite has been marked used all the same. *)
Theorem X21_redeem_by_member (token uid : jsstring) (now stamp : Z)
    (st : Service.Store) (invite : Service.InviteToken) (role : SessionRole) :
  Service.inviteTable st !! token = Some invite →
  Service.invite_usedAt invite = None →
  (now ≤ Service.invite_expiresAt invite)%Z →
  Service.getUserRole (Service.invite_sessionId invite) uid st = Some role →
  ∃ st',
    Service.redeemInvite token uid now stamp st
    = Service.Fail Service.UniqueConstraint st'
    ∧ (∀ u sid, Service.getUserRole sid u st' = Service.getUserRole sid u st)
    ∧ ∃ used, Service.inviteTable st' !! token = Some used
              ∧ Service.invite_usedAt used = Some stamp.
Proof.
  intros Hi Hu Hexp Hrole.
  rewrite (redeem_reaches_update token uid now stamp st invite Hi Hu Hexp).
  stsimpl. rewrite Hrole. eexists. split; [done|]. stsimpl.
  split; [done|]. eexists. by rewrite lookup_insert_eq.
Qed.

(** X22: [create] by a user with an account, under an identifier the
    store has not used, makes the creator the OWNER of the new session: [getUserRole] returns OWNER
    for the creator, [findById] returns the row, which is ACTIVE with
    an empty output buffer and the creator as owner, and no other
    membership, session or invite changes. *)
Theorem X22_create_owner (newId name ownerId : jsstring)
    (description : option jsstring) (st : Service.Store) :
  is_Some (users (Service.base st) !! ownerId) →
  Service.sessionTable st !! newId = None →
  Service.getUserRole newId ownerId st = None →
  let row := Service.mkSessionRow name description ownerId Service.ACTIVE [] in
  ∃ st',
    Service.create newId name description ownerId st = Service.Ok row st'
    ∧ Service.getUserRole newId ownerId st' = Some OWNER
    ∧ Service.findById newId st' = Some row
    ∧ (∀ u sid, (u, sid) ≠ (ownerId, newId) →
         Service.getUserRole sid u st' = Service.getUserRole sid u st)
    ∧ (∀ sid, sid ≠ newId → Service.findById sid st' = Service.findById sid st)
    ∧ Service.inviteTable st' = Service.inviteTable st.
Proof.
  intros _ Hfresh Hnone row. unfold Service.create. stsimpl.
  rewrite Hfresh, Hnone. eexists. split; [done|]. stsimpl.
  split; [by rewrite lookup_insert_eq|].
  split; [by rewrite lookup_insert_eq|].
  split; [intros u sid Hne; by rewrite lookup_insert_ne|].
  split; [intros sid Hne; by rewrite lookup_insert_ne|done].
Qed.

Section RouteLemmas.

Import Service Routes.

Lemma parse_session_Some (name description : Field jsstring) (n : jsstring)
    (d : option jsstring) :
  parse_session name description = Some (n, d) →
  name = Present n ∧ 1 ≤ length n ≤ 100
  ∧ match d with
    | Some text => description = Present text ∧ length text ≤ 500
    | None => description = Absent
    end.
Proof.
  unfold parse_session. destruct name as [|n'|]; [done| |done].
  destruct (1 <=? length n') eqn:H1; [|done].
  destruct (length n' <=? 100) eqn:H2; [|done]. cbn [andb].
  apply Nat.leb_le in H1, H2.
  destruct description as [|d'|]; [| |done].
  - intros [= <- <-]. done.
  - destruct (length d' <=? 500) eqn:H3; [|done]. apply Nat.leb_le in H3.
    intros [= <- <-]. done.
Qed.

Lemma parse_invite_Some (role : Field jsstring) (hours : Field QArith_base.Q)
    (r : SessionRole) (h : option QArith_base.Q) :
  parse_invite role hours = Some (r, h) →
  (role = Present (lit "VIEWER") ∧ r = VIEWER)
  ∨ (role = Present (lit "OPERATOR") ∧ r = OPERATOR).
Proof.
  unfold parse_invite. destruct role as [|text|]; [done| |done].
  destruct (decide (text = lit "VIEWER")) as [->|_].
  - destruct hours as [|q|]; [| |done].
    + intros [= <- _]. by left.
    + destruct (_ && _); [|done]. intros [= <- _]. by left.
  - destruct (decide (text = lit "OPERATOR")) as [->|_]; [|done].
    destruct hours as [|q|]; [| |done].
    + intros [= <- _]. by right.
    + destruct (_ && _); [|done]. intros [= <- _]. by right.
Qed.

End RouteLemmas.

(** X23: POST /sessions answers 201 only for a body whose name has 1 to
    100 units and whose description, if there is one, has at most 500;
    the caller is then the OWNER of the session in the answer.  With
    any other status the store is unchanged. *)
Theorem X23_post_session (user : ReqUser) (name description : Routes.Field jsstring)
    (newId : jsstring) (st : Service.Store) :
  let out := Routes.post_session user name description newId st in
  (Routes.status out.1 = 201 →
     ∃ n d row,
       Routes.parse_session name description = Some (n, d)
       ∧ 1 ≤ length n ≤ 100
       ∧ row = Service.mkSessionRow n d (user_id user) Service.ACTIVE []
       ∧ Routes.body out.1 = Routes.CreatedBody row
       ∧ Service.findById newId out.2 = Some row
       ∧ Service.getUserRole newId (user_id user) out.2 = Some OWNER)
  ∧ (Routes.status out.1 ≠ 201 → out.2 = st).
Proof.
  intros out. subst out. unfold Routes.post_session.
  destruct (Routes.parse_session name description) as [[n d]|] eqn:Hp;
    [|by split].
  destruct (parse_session_Some _ _ _ _ Hp) as (_ & Hlen & _).
  unfold Service.create.
  destruct (Service.sessionTable st !! newId) eqn:Hrow; [by split|].
  destruct (sessionMembers (Service.base st) !! (user_id user, newId)) eqn:Hm;
    [by split|].
  cbn [fst snd Routes.status Routes.body]. split; [|done].
  intros _. eexists n, d, _. split; [done|]. split; [done|]. split; [done|].
  split; [done|]. stsimpl. by rewrite !lookup_insert_eq.
Qed.

(** X24: GET /sessions/:id never writes.  It answers 404 when there is
    no such session; otherwise 200, with the session and the caller's
    role in it, exactly when the caller is a member of the session or
    an administrator, and 403 'Access denied' when neither. *)
Theorem X24_get_session_access (user : ReqUser) (id : jsstring)
    (st : Service.Store) :
  let out := Routes.get_session user id st in
  out.2 = st
  ∧ match Service.findById id st with
    | None =>
        out.1 = Routes.mkResponse 404 (Routes.ErrorBody (lit "Session not found"))
    | Some session =>
        let role := Service.getUserRole id (user_id user) st in
        (is_Some role ∨ user_role user = User.ADMIN →
           out.1 = Routes.mkResponse 200 (Routes.SessionBody session role))
        ∧ (role = None → user_role user ≠ User.ADMIN →
           out.1 = Routes.mkResponse 403 (Routes.ErrorBody (lit "Access denied")))
    end.
Proof.
  intros out. subst out. unfold Routes.get_session.
  destruct (Service.findById id st) as [session|]; [|done].
  destruct (Service.getUserRole id (user_id user) st) as [role|] eqn:Hr.
  - rewrite bool_decide_false by done. cbn [andb fst snd].
    split; [done|]. split; [done|]. done.
  - rewrite bool_decide_true by done. cbn [andb].
    destruct (decide (user_role user = User.ADMIN)) as [Ha|Ha].
    + rewrite bool_decide_false by (intros Hn; by apply Hn).
      cbn [fst snd]. split; [done|]. split; [done|]. intros _ Hn. by destruct Hn.
    + rewrite bool_decide_true by done. cbn [fst snd]. split; [done|].
      split; [|done]. intros [[? ?]|?]; done.
Qed.

(** X25: an administrator who is not a member of a session is let in by
    GET /sessions/:id, which answers 200 with no role, but not by the
    gateway: the [session:join] of a socket of the same user to the same
    session is answered 'Access denied'. *)
Theorem X25_admin_http_not_socket (user : ReqUser) (id : jsstring)
    (st : Service.Store) (session : Service.SessionRow) (w : World) (c : nat)
    (s : Socket) :
  Service.findById id st = Some session →
  Service.getUserRole id (user_id user) st = None →
  user_role user = User.ADMIN →
  db w = Service.base st →
  sockets w !! c = Some s →
  userId s = user_id user →
  (Routes.get_session user id st).1
  = Routes.mkResponse 200 (Routes.SessionBody session None)
  ∧ received c (Gateway.session_join c id w)
    = received c w ++ [EvError (lit "Access denied")]
  ∧ sockets (Gateway.session_join c id w) !! c
    = Some (Io.push (EvError (lit "Access denied")) s).
Proof.
  intros Hrow Hrole Hadmin Hdb Hs Hu. split.
  - unfold Routes.get_session. rewrite Hrow, Hrole, Hadmin.
    rewrite bool_decide_true by done.
    rewrite bool_decide_false by (intros Hn; by apply Hn). done.
  - assert (SessionService.getUserRole id (userId s) (db w) = None) as Hr
      by (rewrite Hdb, Hu; exact Hrole).
    rewrite (join_denied c id w s Hs Hr).
    by rewrite (received_emit c _ w s Hs), lookup_emit, Hs.
Qed.

(** X26: POST /sessions/:id/invite writes only when the body is valid
    and the caller is the OWNER of the session or an administrator; what
    it writes is one unused invite for that session, with the token and
    expiry of the answer and a role that is VIEWER or OPERATOR as the
    body says.  A body that is not valid is answered 400 whoever the
    caller is. *)
Theorem X26_post_invite_guard (user : ReqUser) (id : jsstring)
    (role : Routes.Field jsstring) (hours : Routes.Field QArith_base.Q)
    (token : jsstring) (expiresAt : Z) (st : Service.Store) :
  let out := Routes.post_invite user id role hours token expiresAt st in
  (out.2 ≠ st →
     (Service.getUserRole id (user_id user) st = Some OWNER
      ∨ user_role user = User.ADMIN)
     ∧ ∃ r, (role = Routes.Present (lit "VIEWER") ∧ r = VIEWER
             ∨ role = Routes.Present (lit "OPERATOR") ∧ r = OPERATOR)
            ∧ out.2 = Service.set_invites
                        (insert token (Service.mkInvite id r expiresAt None)) st
            ∧ out.1 = Routes.mkResponse 201 (Routes.InviteBody token expiresAt))
  ∧ (Routes.parse_invite role hours = None →
     out = (Routes.mkResponse 400 Routes.ValidationBody, st)).
Proof.
  intros out. subst out. unfold Routes.post_invite.
  destruct (Routes.parse_invite role hours) as [[r h]|] eqn:Hp; [|by split].
  split; [|done]. apply parse_invite_Some in Hp.
  destruct (decide (Service.getUserRole id (user_id user) st = Some OWNER))
    as [Ho|Ho];
    [rewrite bool_decide_false by (intros Hn; by apply Hn)
    |rewrite bool_decide_true by done];
    cbn [andb].
  2: destruct (decide (user_role user = User.ADMIN)) as [Ha|Ha];
       [rewrite bool_decide_false by (intros Hn; by apply Hn)
       |rewrite bool_decide_true by done; by intros Hn].
  all: unfold Service.createInvite;
    destruct (Service.inviteTable st !! token); [by intros Hn|];
    cbn [fst snd]; intros _; (split; [by auto|]);
    exists r; split; [exact Hp|done].
Qed.

Section Owners.

Import Service Routes.

Lemma owners_create (newId name ownerId : jsstring)
    (description : option jsstring) (st : Store) :
  owners_are_creators st →
  owners_are_creators (store_of (create newId name description ownerId st)).
Proof.
  intros [Hown Hinv]. unfold create.
  destruct (sessionTable st !! newId) eqn:Hrow; [done|].
  destruct (sessionMembers (base st) !! (ownerId, newId)) eqn:Hm; [done|].
  split; stsimpl; [|done].
  intros u sid Hmem. destruct (decide ((ownerId, newId) = (u, sid))) as [[= <- <-]|Hne].
  - rewrite lookup_insert_eq. eauto.
  - rewrite lookup_insert_ne in Hmem by done.
    destruct (Hown u sid Hmem) as (row & Hr & Ho).
    exists row. split; [|done]. rewrite lookup_insert_ne; [done|].
    intros <-. congruence.
Qed.

Lemma owners_createInvite (token : jsstring) (expiresAt : Z) (sid : jsstring)
    (role : SessionRole) (st : Store) :
  role ≠ OWNER →
  owners_are_creators st →
  owners_are_creators (store_of (createInvite token expiresAt sid role st)).
Proof.
  intros Hrole [Hown Hinv]. unfold createInvite.
  destruct (inviteTable st !! token) eqn:Hi; [done|].
  split; stsimpl; [done|].
  intros t invite [[<- <-]|[_ Hold]]%lookup_insert_Some; [done|].
  by apply (Hinv t).
Qed.

Lemma owners_redeemInvite (token uid : jsstring) (now stamp : Z) (st : Store) :
  owners_are_creators st →
  owners_are_creators (store_of (redeemInvite token uid now stamp st)).
Proof.
  intros [Hown Hinv]. unfold redeemInvite.
  destruct (inviteTable st !! token) as [invite|] eqn:Hi; [|done].
  destruct (invite_usedAt invite); [done|].
  destruct (invite_expiresAt invite <? now)%Z; [done|].
  pose proof (Hinv token invite Hi) as Hrole.
  assert (∀ t inv',
            <[token := mkInvite (invite_sessionId invite) (invite_role invite)
                         (invite_expiresAt invite) (Some stamp)]>
              (inviteTable st) !! t = Some inv' →
            invite_role inv' ≠ OWNER) as Hinv'.
  { intros t inv' [[<- <-]|[_ Hold]]%lookup_insert_Some; [done|].
    by apply (Hinv t). }
  stsimpl.
  destruct (sessionMembers (base st) !! (uid, invite_sessionId invite)) eqn:Hm;
    (split; stsimpl; [|exact Hinv']); [exact Hown|].
  intros u sid [[[= <- <-] Heq]|[_ Hold]]%lookup_insert_Some; [done|].
  by apply Hown.
Qed.

Lemma owners_route (user : ReqUser) (r : Request) (st : Store) :
  owners_are_creators st → owners_are_creators (route user r st).2.
Proof.
  intros Hst.
  destruct r as [name description newId|id|id role hours token expiresAt
                 |token now stamp]; cbn [route].
  - unfold post_session.
    destruct (parse_session name description) as [[n d]|]; [|done].
    pose proof (owners_create newId n (user_id user) d st Hst) as Hc.
    by destruct (create newId n d (user_id user) st).
  - unfold get_session. destruct (findById id st); [|done].
    by destruct (_ && _).
  - unfold post_invite.
    destruct (parse_invite role hours) as [[r h]|] eqn:Hp; [|done].
    destruct (_ && _); [done|].
    assert (r ≠ OWNER) as Hr
      by (apply parse_invite_Some in Hp as [[_ ->]|[_ ->]]; done).
    pose proof (owners_createInvite token expiresAt id r st Hr Hst) as Hc.
    by destruct (createInvite token expiresAt id r st).
  - unfold post_join.
    pose proof (owners_redeemInvite token (user_id user) now stamp st Hst) as Hc.
    by destruct (redeemInvite token (user_id user) now stamp st).
Qed.

End Owners.

(** X27: in every run of the create, read, invite and join routes from a
    store with accounts and nothing else, whatever the requests and
    their authorization headers, the only OWNER of a session is the
    user who created it, and no invite carries the role OWNER. *)
Theorem X27_owners_are_creators (verify : jsstring → Verified)
    (accounts : gmap jsstring User.Role)
    (reqs : list (option jsstring * Routes.Request)) :
  Routes.owners_are_creators
    (Routes.serve_all verify reqs (Routes.empty_store accounts)).
Proof.
  assert (Routes.owners_are_creators (Routes.empty_store accounts)) as Hempty.
  { split; unfold Routes.empty_store; stsimpl.
    - intros u sid Hm. by rewrite lookup_empty in Hm.
    - intros t invite Hi. by rewrite lookup_empty in Hi. }
  revert Hempty. generalize (Routes.empty_store accounts).
  induction reqs as [|req reqs IH]; intros st Hst; [done|].
  apply (IH (Routes.serve verify req st).2).
  unfold Routes.serve.
  destruct (Auth.authMiddleware verify req.1 (Service.base st)) as [m|user];
    [done|].
  by apply owners_route.
Qed.

(** * The further properties on the small deployment *)

Lemma well_formed_boot (d : Database) (b : Backend) : well_formed (boot d b).
Proof.
  split; unfold boot; wsimpl; [intros c s sid Hs|intros c s Hs|];
    by rewrite ?lookup_empty in *.
Qed.

Lemma X1_witness :
  sockets Demo.both_in_A !! 1 = Some Demo.bob_socket
  ∧ attached_to Demo.sA Demo.bob_socket
  ∧ sockets (Gateway.session_leave 1 Demo.both_in_A) !! 1
    = Some (mkSocket Demo.bob None None ∅ [EvJoined Demo.sA VIEWER]).
Proof.
  assert (sockets Demo.both_in_A !! 1 = Some Demo.bob_socket) as Hs
    by (vm_compute; reflexivity).
  assert (attached_to Demo.sA Demo.bob_socket) as Ha by reflexivity.
  split; [exact Hs|]. split; [exact Ha|].
  rewrite (proj1 (X1_leave_detaches Demo.both_in_A 1 Demo.bob_socket Demo.sA
                    (lit "ls") Hs Ha)).
  vm_compute; reflexivity.
Defined.

Lemma X2_witness :
  sockets (Demo.start NoNodePty) !! 0 = Some (Demo.fresh Demo.alice)
  ∧ unattached (Demo.fresh Demo.alice)
  ∧ Gateway.session_leave 0 (Demo.start NoNodePty) = Demo.start NoNodePty.
Proof.
  assert (sockets (Demo.start NoNodePty) !! 0 = Some (Demo.fresh Demo.alice))
    as Hs by (vm_compute; reflexivity).
  assert (unattached (Demo.fresh Demo.alice)) as Hu by reflexivity.
  split; [exact Hs|]. split; [exact Hu|].
  exact (proj1 (X2_leave_idempotent (Demo.start NoNodePty) 0) _ Hs Hu).
Defined.

Lemma X3_witness :
  sockets Demo.both_in_A !! 1 = Some Demo.bob_socket
  ∧ attached_to Demo.sA Demo.bob_socket
  ∧ received 1 (run_outputs Demo.sA [(0, Demo.hello)]
                  (Gateway.session_leave 1 Demo.both_in_A))
    = [EvJoined Demo.sA VIEWER].
Proof.
  assert (sockets Demo.both_in_A !! 1 = Some Demo.bob_socket) as Hs
    by (vm_compute; reflexivity).
  assert (attached_to Demo.sA Demo.bob_socket) as Ha by reflexivity.
  split; [exact Hs|]. split; [exact Ha|].
  rewrite (proj1 (X3_leave_stops_output Demo.both_in_A 1 Demo.bob_socket
                    Demo.sA [(0, Demo.hello)] Hs Ha)).
  vm_compute; reflexivity.
Defined.

Lemma X5_witness :
  sockets Demo.both_in_A !! 1 = Some Demo.bob_socket
  ∧ received 1 (run_outputs Demo.sA [(0, Demo.hello); (0, lit "!")]
                  Demo.both_in_A)
    = [EvJoined Demo.sA VIEWER; EvOutput Demo.hello; EvOutput (lit "!")]
  ∧ received 1 (run_outputs Demo.sB [(3, Demo.hello)] Demo.both_in_A)
    = [EvJoined Demo.sA VIEWER].
Proof.
  assert (sockets Demo.both_in_A !! 1 = Some Demo.bob_socket) as Hs
    by (vm_compute; reflexivity).
  split; [exact Hs|]. split.
  - rewrite (X5_output_fan_out Demo.both_in_A 1 Demo.bob_socket Demo.sA
               [(0, Demo.hello); (0, lit "!")] Hs).
    vm_compute; reflexivity.
  - rewrite (X5_output_fan_out Demo.both_in_A 1 Demo.bob_socket Demo.sB
               [(3, Demo.hello)] Hs).
    vm_compute; reflexivity.
Defined.

Lemma X6_witness :
  sockets Demo.both_in_A !! 0 = Some Demo.alice_socket
  ∧ attached_to Demo.sA Demo.alice_socket
  ∧ calls (Gateway.session_resize 0 80 24 Demo.both_in_A)
    = calls Demo.both_in_A ++ [CallResize Demo.sA 80 24; PtyResize 0 80 24].
Proof.
  assert (sockets Demo.both_in_A !! 0 = Some Demo.alice_socket) as Hs
    by (vm_compute; reflexivity).
  assert (attached_to Demo.sA Demo.alice_socket) as Ha by reflexivity.
  split; [exact Hs|]. split; [exact Ha|].
  rewrite (proj2 (proj2 (X6_resize_forwarded Demo.both_in_A 0 Demo.alice_socket
                           Demo.sA 80 24 Hs Ha))).
  vm_compute; reflexivity.
Defined.

Lemma X7_witness :
  sockets Demo.both_in_A !! 0 = Some Demo.alice_socket
  ∧ attached_to Demo.sA Demo.alice_socket
  ∧ sessions Demo.both_in_A !! Demo.sA = Some Demo.sessionA
  ∧ sockets Demo.both_in_A !! 1 = Some Demo.bob_socket
  ∧ received 1 (Gateway.session_input 0 (lit "ls") Demo.both_in_A)
    = [EvJoined Demo.sA VIEWER; EvOutput (lit "ls")].
Proof.
  assert (sockets Demo.both_in_A !! 0 = Some Demo.alice_socket) as Hs
    by (vm_compute; reflexivity).
  assert (sockets Demo.both_in_A !! 1 = Some Demo.bob_socket) as Hb
    by (vm_compute; reflexivity).
  assert (attached_to Demo.sA Demo.alice_socket) as Ha by reflexivity.
  assert (sessions Demo.both_in_A !! Demo.sA = Some Demo.sessionA) as Hsess
    by (vm_compute; reflexivity).
  split; [exact Hs|]. split; [exact Ha|]. split; [exact Hsess|].
  split; [exact Hb|].
  rewrite (proj2 (X7_mock_echo Demo.both_in_A 0 Demo.alice_socket Demo.sA
                    (lit "ls") Demo.sessionA Hs Ha (or_introl eq_refl)
                    Hsess eq_refl) 1 Demo.bob_socket Hb).
  vm_compute; reflexivity.
Defined.

Lemma X8_witness :
  sockets Demo.both_in_A !! 0 = Some Demo.alice_socket
  ∧ attached_to Demo.sA Demo.alice_socket
  ∧ received 0 (Gateway.session_input 0 (lit "ls")
                  (PtyManager.onExit Demo.sA 1 Demo.both_in_A))
    = [EvJoined Demo.sA OWNER; EvExit 1; EvError (lit "Failed to send input")].
Proof.
  assert (sockets Demo.both_in_A !! 0 = Some Demo.alice_socket) as Hs
    by (vm_compute; reflexivity).
  assert (attached_to Demo.sA Demo.alice_socket) as Ha by reflexivity.
  split; [exact Hs|]. split; [exact Ha|].
  rewrite (proj1 (proj2 (X8_exit_keeps_attached Demo.both_in_A 0
                           Demo.alice_socket Demo.sA (lit "ls") 1 Hs Ha
                           (or_introl eq_refl)))).
  vm_compute; reflexivity.
Defined.

Lemma X9_witness :
  sessions Demo.both_in_A !! Demo.sA = Some Demo.sessionA
  ∧ ∃ w', Manager.kill Demo.sA Demo.both_in_A = Return w'
          ∧ sessions w' = delete Demo.sA (sessions Demo.both_in_A)
          ∧ Manager.kill Demo.sA w' = Return w'.
Proof.
  assert (sessions Demo.both_in_A !! Demo.sA = Some Demo.sessionA) as Hsess
    by (vm_compute; reflexivity).
  split; [exact Hsess|].
  destruct (proj2 (X9_kill_removes_record Demo.both_in_A Demo.sA)
              Demo.sessionA Hsess (or_introl eq_refl))
    as (w' & Hk & Hdel & _ & Hagain & _).
  exists w'. split; [exact Hk|]. split; [exact Hdel|exact Hagain].
Defined.

Lemma X10_witness :
  sessions Demo.both_in_A !! Demo.sA = Some Demo.sessionA
  ∧ mock (pty Demo.sessionA) = true
  ∧ calls (world_of (Manager.kill Demo.sA Demo.both_in_A))
    = calls Demo.both_in_A ++ [DbUpdateStatusTerminated Demo.sA].
Proof.
  assert (sessions Demo.both_in_A !! Demo.sA = Some Demo.sessionA) as Hsess
    by (vm_compute; reflexivity).
  split; [exact Hsess|]. split; [reflexivity|].
  exact (proj1 (proj2 (X10_kill_mock_exits Demo.both_in_A Demo.sA
                         Demo.sessionA Hsess eq_refl))).
Defined.

Lemma X11_witness :
  sessions (Demo.start NoNodePty) !! Demo.sA = None
  ∧ ∃ w', PtyManager.spawn Demo.sA (Demo.start NoNodePty) = Return w'
          ∧ PtyManager.exists_ Demo.sA w' = true.
Proof.
  assert (sessions (Demo.start NoNodePty) !! Demo.sA = None) as Hnone
    by (vm_compute; reflexivity).
  split; [exact Hnone|].
  destruct (X11_spawn_registers (Demo.start NoNodePty) Demo.sA Hnone)
    as (w' & Hsp & _ & Hex & _).
  exists w'. split; [exact Hsp|exact Hex].
Defined.

Lemma X14_witness :
  well_formed Desk.alice_online
  ∧ calls (PtyManager.onData Demo.sA 0 Demo.hello Desk.alice_online)
    = calls Desk.alice_online ++ [DbUpdateOutputBuffer Demo.sA Demo.hello].
Proof.
  assert (well_formed Desk.alice_online) as Hwf.
  { unfold Desk.alice_online. cbn [run_actions foldl].
    apply well_formed_act, well_formed_act, well_formed_boot. }
  split; [exact Hwf|].
  rewrite (proj1 (X14_mirror_is_buffer Desk.alice_online Demo.sA 0 Demo.hello
                    Hwf)).
  vm_compute; reflexivity.
Defined.

Lemma X15_witness :
  sockets (boot Demo.database NoNodePty) !! 0 = None
  ∧ ∃ s, sockets (connect Desk.verify 0 (Some Desk.alice_token)
                    (boot Demo.database NoNodePty)) !! 0 = Some s
         ∧ is_Some (users Demo.database !! userId s)
         ∧ s = mkSocket (userId s) None None ∅ [].
Proof.
  assert (sockets (boot Demo.database NoNodePty) !! 0 = None) as Hfree
    by reflexivity.
  split; [exact Hfree|].
  pose proof (proj1 (X15_connect_authenticated Desk.verify 0
                       (Some Desk.alice_token) _ Hfree)) as Hin.
  exists (Demo.fresh Demo.alice). split; [vm_compute; reflexivity|].
  exact (proj2 Hin).
Defined.

Lemma X17_witness :
  Desk.alice_token ≠ []
  ∧ Auth.authMiddleware Desk.verify (Some (Auth.bearer Desk.alice_token))
      Demo.database
    = inr (mkReqUser Demo.alice User.VIEWER).
Proof.
  assert (Desk.alice_token ≠ []) as Hne by (vm_compute; discriminate).
  split; [exact Hne|].
  apply (X17_auth_agree Desk.verify Desk.alice_token Demo.alice User.VIEWER
           Demo.database Hne).
  split; vm_compute; reflexivity.
Defined.

Lemma X18_witness :
  Service.redeemInvite Desk.invitation Demo.bob 2000 2001 Desk.with_invite
  = Service.Fail (Service.Message (lit "Invite expired")) Desk.with_invite
  ∧ (1000 < 2000)%Z.
Proof.
  assert (Service.redeemInvite Desk.invitation Demo.bob 2000 2001
            Desk.with_invite
          = Service.Fail (Service.Message (lit "Invite expired"))
              Desk.with_invite) as Hfail by (vm_compute; reflexivity).
  split; [exact Hfail|].
  exact (proj2 (proj2 (X18_redeem_rejects Desk.invitation Demo.bob
                         (lit "Invite expired") 2000 2001 Desk.with_invite
                         Desk.with_invite Hfail))).
Defined.

Lemma X19_witness :
  Service.inviteTable Desk.with_invite !! Desk.invitation = Some Desk.invite
  ∧ Service.invite_usedAt Desk.invite = None
  ∧ (500 ≤ Service.invite_expiresAt Desk.invite)%Z
  ∧ is_Some (users (Service.base Desk.with_invite) !! Demo.bob)
  ∧ is_Some (Service.findById Desk.board Desk.with_invite)
  ∧ Service.getUserRole Desk.board Demo.bob Desk.with_invite = None
  ∧ Service.getUserRole Desk.board Demo.bob Desk.bob_joined = Some OPERATOR.
Proof.
  assert (Service.inviteTable Desk.with_invite !! Desk.invitation
          = Some Desk.invite) as Hi by (vm_compute; reflexivity).
  assert (500 ≤ Service.invite_expiresAt Desk.invite)%Z as Hexp
    by (vm_compute; discriminate).
  assert (Service.getUserRole (Service.invite_sessionId Desk.invite) Demo.bob
            Desk.with_invite = None) as Hnone by (vm_compute; reflexivity).
  assert (is_Some (users (Service.base Desk.with_invite) !! Demo.bob)) as Hacc
    by (vm_compute; eauto).
  assert (is_Some (Service.findById (Service.invite_sessionId Desk.invite)
                     Desk.with_invite)) as Hrow
    by (vm_compute; eauto).
  split; [exact Hi|]. split; [reflexivity|]. split; [exact Hexp|].
  split; [exact Hacc|]. split; [exact Hrow|]. split; [exact Hnone|].
  destruct (X19_redeem_grants Desk.invitation Demo.bob 500 501
              Desk.with_invite Desk.invite Hi eq_refl Hexp Hacc Hrow Hnone)
    as (st' & Heq & Hrole & _).
  unfold Desk.bob_joined. rewrite Heq. exact Hrole.
Defined.


Lemma X21_witness :
  Service.inviteTable Desk.with_invite !! Desk.invitation = Some Desk.invite
  ∧ Service.invite_usedAt Desk.invite = None
  ∧ (500 ≤ Service.invite_expiresAt Desk.invite)%Z
  ∧ Service.getUserRole Desk.board Demo.alice Desk.with_invite = Some OWNER
  ∧ Service.getUserRole Desk.board Demo.alice
      (Service.store_of
         (Service.redeemInvite Desk.invitation Demo.alice 500 501
            Desk.with_invite))
    = Some OWNER.
Proof.
  assert (Service.inviteTable Desk.with_invite !! Desk.invitation
          = Some Desk.invite) as Hi by (vm_compute; reflexivity).
  assert (500 ≤ Service.invite_expiresAt Desk.invite)%Z as Hexp
    by (vm_compute; discriminate).
  assert (Service.getUserRole (Service.invite_sessionId Desk.invite)
            Demo.alice Desk.with_invite = Some OWNER) as Hrole
    by (vm_compute; reflexivity).
  split; [exact Hi|]. split; [reflexivity|]. split; [exact Hexp|].
  split; [exact Hrole|].
  destruct (X21_redeem_by_member Desk.invitation Demo.alice 500 501
              Desk.with_invite Desk.invite OWNER Hi eq_refl Hexp Hrole)
    as (st' & Heq & Hsame & _).
  rewrite Heq. cbn [Service.store_of]. rewrite Hsame. exact Hrole.
Defined.

Lemma X22_witness :
  is_Some (users (Service.base (Routes.empty_store Desk.accounts)) !! Demo.alice)
  ∧ Service.sessionTable (Routes.empty_store Desk.accounts) !! Desk.board = None
  ∧ Service.getUserRole Desk.board Demo.alice (Routes.empty_store Desk.accounts)
    = None
  ∧ Service.getUserRole Desk.board Demo.alice Desk.with_board = Some OWNER
  ∧ Service.findById Desk.board Desk.with_board = Some Desk.board_row.
Proof.
  assert (Service.sessionTable (Routes.empty_store Desk.accounts) !! Desk.board
          = None) as Hfresh by reflexivity.
  assert (Service.getUserRole Desk.board Demo.alice
            (Routes.empty_store Desk.accounts) = None) as Hnone
    by reflexivity.
  assert (is_Some (users (Service.base (Routes.empty_store Desk.accounts))
                     !! Demo.alice)) as Hacc
    by (vm_compute; eauto).
  split; [exact Hacc|]. split; [exact Hfresh|]. split; [exact Hnone|].
  destruct (X22_create_owner Desk.board (lit "Board") Demo.alice None
              (Routes.empty_store Desk.accounts) Hacc Hfresh Hnone)
    as (st' & Heq & Hrole & Hrow & _).
  unfold Desk.with_board. rewrite Heq. cbn [Service.store_of].
  split; [exact Hrole|exact Hrow].
Defined.

Lemma X25_witness :
  Service.findById Desk.board Desk.with_board = Some Desk.board_row
  ∧ Service.getUserRole Desk.board Demo.root Desk.with_board = None
  ∧ sockets Desk.root_online !! 7 = Some (Demo.fresh Demo.root)
  ∧ Routes.status
      (Routes.get_session (mkReqUser Demo.root User.ADMIN) Desk.board
         Desk.with_board).1 = 200
  ∧ received 7 (Gateway.session_join 7 Desk.board Desk.root_online)
    = [EvError (lit "Access denied")].
Proof.
  assert (Service.findById Desk.board Desk.with_board = Some Desk.board_row)
    as Hrow by (vm_compute; reflexivity).
  assert (Service.getUserRole Desk.board
            (user_id (mkReqUser Demo.root User.ADMIN)) Desk.with_board = None)
    as Hnone by (vm_compute; reflexivity).
  assert (sockets Desk.root_online !! 7 = Some (Demo.fresh Demo.root)) as Hs
    by (vm_compute; reflexivity).
  destruct (X25_admin_http_not_socket (mkReqUser Demo.root User.ADMIN)
              Desk.board Desk.with_board Desk.board_row Desk.root_online 7
              (Demo.fresh Demo.root) Hrow Hnone eq_refl eq_refl Hs eq_refl)
    as (Hhttp & Hsock & _).
  split; [exact Hrow|]. split; [exact Hnone|]. split; [exact Hs|]. split.
  - rewrite Hhttp. reflexivity.
  - rewrite Hsock. vm_compute; reflexivity.
Defined.
